(** * S3 client console: session store, credential schema, AWS gateway, routes

  A shallow embedding of the server side of the S3 console
  ([shared/schema.ts], [server/storage.ts], [server/services/aws.ts] and
  the route handlers of [registerRoutes]) together with the properties
  its specification states about them.

  JavaScript values are modelled as the handlers see them: a field that
  may be [undefined] is an [option]; a [Map] with string keys is a
  [gmap string _]; a [Promise] that resolves or rejects is a
  [completion]; the process-wide singletons [storage] and [awsService]
  and the remote storage service are threaded as explicit state. *)

From Stdlib Require Import ZArith String List Lia.
From stdpp Require Import gmap strings list fin_maps list_numbers.

Set Warnings "-register-all".
Local Open Scope string_scope.
Local Open Scope Z_scope.

(** ** JavaScript runtime notions *)

Module Js.

(** A [Date], as milliseconds since the epoch. *)
Definition Date := Z.

(** A [Number] produced by [Math.random()], given by the bit pattern of
    its binary64 representation. *)
Definition Number := Z.

(** [Math.random()] returns a value [v] with [0 <= v < 1]: a binary64 with
    sign bit 0 and biased exponent below 1023, i.e. a bit pattern below
    [0x3FF0000000000000]. *)
Definition is_random_draw (r : Number) : Prop := 0 <= r < 1023 * 2 ^ 52.

(** [s.substring(start)]: the characters from index [start] to the end,
    the empty string when [start] is past the end. *)
Definition substring_from (start : nat) (s : string) : string :=
  String.substring start (String.length s - start) s.

(** Truthiness of a string: only the empty string is falsy. *)
Definition truthy (s : string) : bool := negb (String.eqb s EmptyString).

(** A thrown [Error] (every value thrown in the modelled code, and every
    rejection of the SDK, is an [Error] instance). *)
Record Error := { message : string }.

(** The outcome of a call that returns or throws (of a [Promise] that
    resolves or rejects). *)
Inductive completion (A : Type) :=
| Return (a : A)
| Throw (e : Error).
Arguments Return {A} a.
Arguments Throw {A} e.

(** [a.includes(b)] on strings. *)
Fixpoint includes (a b : string) : bool :=
  String.prefix b a ||
  match a with
  | EmptyString => false
  | String _ a' => includes a' b
  end.

End Js.

(** ** shared/schema.ts *)

Module Schema.

(** A parsed JSON request body.  The schemas below look at the kind of a
    value and at strings only; a number is kept as an integer. *)
Inductive json : Type :=
| JNull
| JBool (b : bool)
| JNumber (n : Z)
| JString (s : string)
| JArray (items : list json)
| JObject (fields : gmap string json).

(** The validation library's issues: the two kinds the schemas of this
    file can raise, the path of the offending field, and the message. *)
Inductive ZodIssueCode := invalid_type | too_small.

Record ZodIssue := {
  code : ZodIssueCode;
  path : list string;
  issue_message : string;
}.

(** The outcome of [schema.parse]: the parsed value, or a thrown [ZodError]
    with its issues. *)
Inductive parsed (A : Type) :=
| Parsed (a : A)
| ThrowZodError (issues : list ZodIssue).
Arguments Parsed {A} a.
Arguments ThrowZodError {A} issues.

(** The library's name for the type of a received value. *)
Definition received (v : json) : string :=
  match v with
  | JNull => "null"
  | JBool _ => "boolean"
  | JNumber _ => "number"
  | JString _ => "string"
  | JArray _ => "array"
  | JObject _ => "object"
  end.

Definition type_issue (expected : string) (input : option json) : ZodIssue :=
  {| code := invalid_type;
     path := [];
     issue_message := match input with
                | None => "Required"
                | Some v => "Expected " +:+ expected +:+ ", received " +:+ received v
                end |}.

(** A schema takes the value found (or [undefined]) and gives the parsed
    value or the issues. *)
Definition schema (A : Type) := option json -> list ZodIssue + A.

(** [z.string()] *)
Definition z_string : schema string :=
  fun input =>
    match input with
    | Some (JString s) => inr s
    | _ => inl [type_issue "string" input]
    end.

(** [.min(n, msg)] on a string schema: the type check first, then the
    length check with the custom message. *)
Definition z_min (n : nat) (msg : string) (inner : schema string) : schema string :=
  fun input =>
    match inner input with
    | inr s =>
        if (String.length s <? n)%nat
        then inl [{| code := too_small; path := []; issue_message := msg |}]
        else inr s
    | inl issues => inl issues
    end.

(** [.optional()]: [undefined] is accepted as it is. *)
Definition z_optional {A} (inner : schema A) : schema (option A) :=
  fun input =>
    match input with
    | None => inr None
    | Some _ =>
        match inner input with
        | inr a => inr (Some a)
        | inl issues => inl issues
        end
    end.

(** Parsing the value under key [k] of an object: issues get [k] in front
    of their path. *)
Definition at_key {A} (k : string) (s : schema A) (fields : gmap string json)
  : list ZodIssue + A :=
  match s (fields !! k) with
  | inr a => inr a
  | inl issues =>
      inl (map (fun i => {| code := code i; path := k :: path i;
                            issue_message := issue_message i |})
               issues)
  end.

Definition issues_of {A} (r : list ZodIssue + A) : list ZodIssue :=
  match r with
  | inl issues => issues
  | inr _ => []
  end.

Record AwsCredentials := {
  accessKeyId : string;
  secretAccessKey : string;
  region : string;
  sessionToken : option string;
}.

(** [awsCredentialsSchema]: a [z.object] of four keys, parsed in the order
    they are declared; keys outside the shape are dropped; every issue of
    every key is reported. *)
Definition awsCredentialsSchema : schema AwsCredentials :=
  fun input =>
    match input with
    | Some (JObject fields) =>
        let a := at_key "accessKeyId"
                   (z_min 1 "Access Key ID is required" z_string) fields in
        let s := at_key "secretAccessKey"
                   (z_min 1 "Secret Access Key is required" z_string) fields in
        let r := at_key "region"
                   (z_min 1 "Region is required" z_string) fields in
        let t := at_key "sessionToken" (z_optional z_string) fields in
        match a, s, r, t with
        | inr a', inr s', inr r', inr t' =>
            inr {| accessKeyId := a'; secretAccessKey := s';
                   region := r'; sessionToken := t' |}
        | _, _, _, _ =>
            inl (issues_of a ++ issues_of s ++ issues_of r ++ issues_of t)%list
        end
    | _ => inl [type_issue "object" input]
    end.

(** [schema.parse(data)]: the value, or a thrown [ZodError]. *)
Definition parse {A} (s : schema A) (data : option json) : parsed A :=
  match s data with
  | inr a => Parsed a
  | inl issues => ThrowZodError issues
  end.

(** The string schema of the three required keys, [z.string().min(1, msg)]. *)
Definition requiredString (msg : string) : schema string := z_min 1 msg z_string.

(** The issues of the four keys of a payload, in the order of the shape. *)
Definition keyIssues (fields : gmap string json) : list ZodIssue :=
  (issues_of (at_key "accessKeyId" (requiredString "Access Key ID is required") fields)
   ++ issues_of (at_key "secretAccessKey"
                   (requiredString "Secret Access Key is required") fields)
   ++ issues_of (at_key "region" (requiredString "Region is required") fields)
   ++ issues_of (at_key "sessionToken" (z_optional z_string) fields))%list.

(** The keys declared without [.optional()]. *)
Definition requiredKeys : list string := ["accessKeyId"; "secretAccessKey"; "region"].

Record S3Object := {
  key : option string;
  size : option Z;
  lastModified : option Js.Date;
  etag : option string;
  storageClass : option string;
  isFolder : bool;
}.

Record S3Bucket := {
  name : option string;
  bucket_region : string;
  creationDate : option Js.Date;
}.

Record S3Session := {
  id : string;
  credentials : AwsCredentials;
  createdAt : Js.Date;
}.

End Schema.

(** ** server/storage.ts *)

Module Storage.
Import Schema.

Record MemStorage := { sessions : gmap string S3Session }.

(** [new MemStorage()] *)
Definition empty : MemStorage := {| sessions := ∅ |}.

Definition getSession (sessionId : string) (st : MemStorage) : option S3Session :=
  sessions st !! sessionId.

(** [Math.random().toString(36).substring(7)].  [toString36] is the
    engine's [Number.prototype.toString] at radix 36 and [rnd] the value
    [Math.random()] returned. *)
Definition newSessionId (toString36 : Js.Number -> string) (rnd : Js.Number) : string :=
  Js.substring_from 7 (toString36 rnd).

(** [createSession(credentials)], with the random draw [rnd] and the clock
    reading [now] it makes: the session and the store after the [set]. *)
Definition createSession (toString36 : Js.Number -> string)
    (rnd : Js.Number) (now : Js.Date) (creds : AwsCredentials) (st : MemStorage)
  : S3Session * MemStorage :=
  let sessionId := newSessionId toString36 rnd in
  let session := {| id := sessionId; credentials := creds; createdAt := now |} in
  (session, {| sessions := <[sessionId := session]> (sessions st) |}).

Definition deleteSession (sessionId : string) (st : MemStorage) : MemStorage :=
  {| sessions := delete sessionId (sessions st) |}.

(** The ids an execution of [createSession] can return: those it gives for
    some value [Math.random()] can return, whatever the clock, the record
    and the store. *)
Definition possibleSessionId (toString36 : Js.Number -> string) (sessionId : string)
  : Prop :=
  exists rnd now creds st,
    Js.is_random_draw rnd
    /\ sessionId = id (fst (createSession toString36 rnd now creds st)).

End Storage.

(** ** server/services/aws.ts *)

Module Aws.
Import Js Schema.

(** The configuration [new S3Client({...})] receives. *)
Record S3ClientConfig := {
  cfg_accessKeyId : string;
  cfg_secretAccessKey : string;
  cfg_sessionToken : option string;
  cfg_region : string;
}.

(** A constructed client; it is determined by its configuration. *)
Record S3Client := { config : S3ClientConfig }.

(** The parts of the provider's responses the service reads. *)
Record Bucket := {
  Name : option string;
  CreationDate : option Js.Date;
}.

Record ListBucketsOutput := { Buckets : option (list Bucket) }.

Record CommonPrefix := { Prefix : option string }.

Record Object_ := {
  Key : option string;
  Size : option Z;
  LastModified : option Js.Date;
  ETag : option string;
  StorageClass : option string;
}.

Record ListObjectsV2Output := {
  CommonPrefixes : option (list CommonPrefix);
  Contents : option (list Object_);
}.

(** The commands the service builds. *)
Record ListObjectsV2Input := {
  lo_Bucket : string;
  lo_Prefix : string;
  lo_Delimiter : string;
}.

Record GetObjectInput := { go_Bucket : string; go_Key : string }.
Record DeleteObjectInput := { do_Bucket : string; do_Key : string }.
Record PutObjectInput := { po_Bucket : string; po_Key : string; po_Body : string }.
Record PresignOptions := { expiresIn : Z }.

(** The SDK and the remote service behind it, which this repository does
    not contain: constructing a client, sending each of the commands, and
    presigning.  [World] is the state outside the process (the buckets and
    their objects, the provider's clock); a call reads and may change it,
    and resolves or rejects. *)
Record Sdk (World : Type) := {
  newS3Client : S3ClientConfig -> completion S3Client;
  sendListBuckets : S3Client -> World -> completion ListBucketsOutput * World;
  sendListObjectsV2 :
    S3Client -> ListObjectsV2Input -> World -> completion ListObjectsV2Output * World;
  sendDeleteObject : S3Client -> DeleteObjectInput -> World -> completion unit * World;
  sendPutObject : S3Client -> PutObjectInput -> World -> completion unit * World;
  getSignedUrl :
    S3Client -> GetObjectInput -> PresignOptions -> World -> completion string * World;
}.
Arguments newS3Client {World}.
Arguments sendListBuckets {World}.
Arguments sendListObjectsV2 {World}.
Arguments sendDeleteObject {World}.
Arguments sendPutObject {World}.
Arguments getSignedUrl {World}.

(** [class AwsService]: its one field. *)
Record AwsService := { s3Client : option S3Client }.

(** [new AwsService()] *)
Definition unbound : AwsService := {| s3Client := None |}.

(** A method of the service: from the service and the world to a
    completion, the service and the world after it.  A [throw] keeps the
    assignments made before it. *)
Definition Op (World A : Type) : Type :=
  AwsService -> World -> completion A * AwsService * World.

Definition not_initialized : Error := {| message := "AWS client not initialized" |}.

(** [initializeWithCredentials]: the constructor's exception is logged and
    rethrown, the field is assigned only when the constructor returned. *)
Definition initializeWithCredentials {World} (sdk : Sdk World)
    (creds : AwsCredentials) : Op World unit :=
  fun svc w =>
    match newS3Client sdk
            {| cfg_accessKeyId := accessKeyId creds;
               cfg_secretAccessKey := secretAccessKey creds;
               cfg_sessionToken := sessionToken creds;
               cfg_region := region creds |} with
    | Return c => (Return tt, {| s3Client := Some c |}, w)
    | Throw e => (Throw e, svc, w)
    end.

Definition toS3Bucket (b : Bucket) : S3Bucket :=
  {| name := Name b; bucket_region := "us-east-1"; creationDate := CreationDate b |}.

Definition listBuckets {World} (sdk : Sdk World) : Op World (list S3Bucket) :=
  fun svc w =>
    match s3Client svc with
    | None => (Throw not_initialized, svc, w)
    | Some c =>
        match sendListBuckets sdk c w with
        | (Return response, w') =>
            (Return (map toS3Bucket (default [] (Buckets response))), svc, w')
        | (Throw e, w') => (Throw e, svc, w')
        end
    end.

(** The entry pushed for a common prefix: [key] and [isFolder] only. *)
Definition folderEntry (p : CommonPrefix) : S3Object :=
  {| key := Prefix p; size := None; lastModified := None; etag := None;
     storageClass := None; isFolder := true |}.

(** The entry pushed for an object of [Contents]. *)
Definition fileEntry (o : Object_) : S3Object :=
  {| key := Key o; size := Size o; lastModified := LastModified o; etag := ETag o;
     storageClass := StorageClass o; isFolder := false |}.

(** [object.Key !== prefix]: an [undefined] key differs from every string. *)
Definition keyIsNot (prefix : string) (o : Object_) : bool :=
  match Key o with
  | Some k => negb (String.eqb k prefix)
  | None => true
  end.

(** The two loops of [listObjects] over a response. *)
Definition collectObjects (prefix : string) (response : ListObjectsV2Output)
  : list S3Object :=
  (map folderEntry (default [] (CommonPrefixes response))
   ++ map fileEntry (List.filter (keyIsNot prefix)
                                 (default [] (Contents response))))%list.

(** [listObjects(bucketName, prefix = '', delimiter = '/')]: an argument
    left [undefined] takes its default. *)
Definition listObjects {World} (sdk : Sdk World) (bucketName : string)
    (prefix delimiter : option string) : Op World (list S3Object) :=
  fun svc w =>
    let prefix := default EmptyString prefix in
    let delimiter := default "/" delimiter in
    match s3Client svc with
    | None => (Throw not_initialized, svc, w)
    | Some c =>
        match sendListObjectsV2 sdk c
                {| lo_Bucket := bucketName; lo_Prefix := prefix;
                   lo_Delimiter := delimiter |} w with
        | (Return response, w') => (Return (collectObjects prefix response), svc, w')
        | (Throw e, w') => (Throw e, svc, w')
        end
    end.

Definition getDownloadUrl {World} (sdk : Sdk World) (bucketName key : string)
  : Op World string :=
  fun svc w =>
    match s3Client svc with
    | None => (Throw not_initialized, svc, w)
    | Some c =>
        let '(r, w') := getSignedUrl sdk c
                          {| go_Bucket := bucketName; go_Key := key |}
                          {| expiresIn := 3600 |} w in
        (r, svc, w')
    end.

Definition deleteObject {World} (sdk : Sdk World) (bucketName key : string)
  : Op World unit :=
  fun svc w =>
    match s3Client svc with
    | None => (Throw not_initialized, svc, w)
    | Some c =>
        let '(r, w') := sendDeleteObject sdk c
                          {| do_Bucket := bucketName; do_Key := key |} w in
        (r, svc, w')
    end.

Definition uploadObject {World} (sdk : Sdk World) (bucketName key body : string)
  : Op World unit :=
  fun svc w =>
    match s3Client svc with
    | None => (Throw not_initialized, svc, w)
    | Some c =>
        let '(r, w') := sendPutObject sdk c
                          {| po_Bucket := bucketName; po_Key := key; po_Body := body |} w in
        (r, svc, w')
    end.

(** The request [listObjects] sends. *)
Definition listRequest (bucketName : string) (prefix delimiter : option string)
  : ListObjectsV2Input :=
  {| lo_Bucket := bucketName;
     lo_Prefix := default EmptyString prefix;
     lo_Delimiter := default "/" delimiter |}.

(** An entry as the specification wants a folder: flagged, and without
    size, date and etag. *)
Definition folderShaped (o : S3Object) : Prop :=
  isFolder o = true /\ size o = None /\ lastModified o = None /\ etag o = None.

(** What the storage service promises of the common prefixes of a listing:
    each is the prefix of the request, followed by the part of a key up to
    its next delimiter, followed by that delimiter; a request without a
    delimiter gets none. *)
Definition commonPrefixesExtendPrefix (request : ListObjectsV2Input)
    (response : ListObjectsV2Output) : Prop :=
  forall cp, In cp (default [] (CommonPrefixes response)) ->
    lo_Delimiter request <> EmptyString
    /\ exists part,
        Prefix cp = Some (lo_Prefix request +:+ part +:+ lo_Delimiter request).

End Aws.

(** ** The route handlers of [registerRoutes] *)

Module Routes.
Import Js Schema Storage Aws.

(** What a handler reads of a request: [req.session?.sessionId], the
    session id carried by the signed cookie, [None] when there is none. *)
Record Request := { req_sessionId : option string }.

(** The JSON bodies the three handlers send. *)
Inductive Body :=
| ConnectionStatus (connected : bool) (region : option string)
| Success
| ErrorBody (error : string)
| BucketList (buckets : list S3Bucket).

(** A response: the status code ([res.json] alone sends 200), the body and
    whether the handler cleared the cookie ([req.session = null]). *)
Record Response := {
  status : Z;
  body : Body;
  cookieCleared : bool;
}.

Definition json_ (b : Body) : Response :=
  {| status := 200; body := b; cookieCleared := false |}.

Definition status_json (code : Z) (b : Body) : Response :=
  {| status := code; body := b; cookieCleared := false |}.

(** The process: the two module-level singletons and the world outside. *)
Record Server (World : Type) := {
  storage : MemStorage;
  awsService : AwsService;
  world : World;
}.
Arguments storage {World}.
Arguments awsService {World}.
Arguments world {World}.

Definition Handler (World : Type) : Type :=
  Request -> Server World -> Response * Server World.

(** [GET /api/connection/status]: every path ends in [res.json], the
    [catch] too. *)
Definition connectionStatus {World} (sdk : Sdk World) : Handler World :=
  fun req srv =>
    match req_sessionId req with
    | None => (json_ (ConnectionStatus false None), srv)
    | Some sessionId =>
        if negb (truthy sessionId) then (json_ (ConnectionStatus false None), srv)
        else
          match getSession sessionId (storage srv) with
          | None => (json_ (ConnectionStatus false None), srv)
          | Some session =>
              match initializeWithCredentials sdk (credentials session)
                      (awsService srv) (world srv) with
              | (Return _, svc, w) =>
                  (json_ (ConnectionStatus true (Some (region (credentials session)))),
                   {| storage := storage srv; awsService := svc; world := w |})
              | (Throw _, svc, w) =>
                  (json_ (ConnectionStatus false None),
                   {| storage := storage srv; awsService := svc; world := w |})
              end
          end
    end.

(** [POST /api/disconnect].  Nothing in the [try] throws for this store, so
    the 500 of the [catch] is never sent. *)
Definition disconnect {World} : Handler World :=
  fun req srv =>
    match req_sessionId req with
    | None => (json_ Success, srv)
    | Some sessionId =>
        if truthy sessionId
        then ({| status := 200; body := Success; cookieCleared := true |},
              {| storage := deleteSession sessionId (storage srv);
                 awsService := awsService srv; world := world srv |})
        else (json_ Success, srv)
    end.

(** [GET /api/buckets].  What the [catch] receives is an [Error], so the
    body carries its [message] and never the fallback text. *)
Definition getBuckets {World} (sdk : Sdk World) : Handler World :=
  fun req srv =>
    match req_sessionId req with
    | None => (status_json 401 (ErrorBody "Not connected"), srv)
    | Some sessionId =>
        if negb (truthy sessionId)
        then (status_json 401 (ErrorBody "Not connected"), srv)
        else
          match getSession sessionId (storage srv) with
          | None => (status_json 401 (ErrorBody "Invalid session"), srv)
          | Some session =>
              match initializeWithCredentials sdk (credentials session)
                      (awsService srv) (world srv) with
              | (Throw e, svc, w) =>
                  (status_json 500 (ErrorBody (message e)),
                   {| storage := storage srv; awsService := svc; world := w |})
              | (Return _, svc, w) =>
                  match listBuckets sdk svc w with
                  | (Return buckets, svc', w') =>
                      (json_ (BucketList buckets),
                       {| storage := storage srv; awsService := svc'; world := w' |})
                  | (Throw e, svc', w') =>
                      (status_json 500 (ErrorBody (message e)),
                       {| storage := storage srv; awsService := svc'; world := w' |})
                  end
              end
          end
    end.

(** The body [{connected: false}]. *)
Definition notConnected : Body := ConnectionStatus false None.

End Routes.

(** ** Sample inputs, used where a property is run on a concrete case *)

Module Samples.
Import Js Schema Storage Aws Routes.

(** A rendering as an engine gives it for a draw: thirteen characters. *)
Definition sampleToString36 : Js.Number -> string := fun _ => "0.4fzyo82mvyr".

Definition credsA : AwsCredentials :=
  {| accessKeyId := "AKIAEXAMPLEA"; secretAccessKey := "secretA";
     region := "eu-west-1"; sessionToken := None |}.

Definition credsB : AwsCredentials :=
  {| accessKeyId := "AKIAEXAMPLEB"; secretAccessKey := "secretB";
     region := "us-east-1"; sessionToken := Some "token" |}.

(** A client as [new S3Client] builds it from [credsA]. *)
Definition sampleClient : S3Client :=
  {| config := {| cfg_accessKeyId := "AKIAEXAMPLEA"; cfg_secretAccessKey := "secretA";
                  cfg_sessionToken := None; cfg_region := "eu-west-1" |} |}.

Definition bound : AwsService := {| s3Client := Some sampleClient |}.

(** A listing of the prefix [photos/]: one sub-folder, the marker object of
    the prefix itself, and one file. *)
Definition sampleListing : ListObjectsV2Output :=
  {| CommonPrefixes := Some [ {| Prefix := Some "photos/2024/" |} ];
     Contents :=
       Some [ {| Key := Some "photos/"; Size := Some 0; LastModified := Some 1700000000000;
                 ETag := Some "d41d8"; StorageClass := Some "STANDARD" |};
              {| Key := Some "photos/a.jpg"; Size := Some 2048;
                 LastModified := Some 1700000001000;
                 ETag := Some "9e107"; StorageClass := Some "STANDARD" |} ] |}.

(** A provider over a world without state: it answers every listing with
    [listing], accepts deletions and uploads, and presigns one-hour URLs
    only. *)
Definition sampleSdk (listing : ListObjectsV2Output) : Sdk unit :=
  {| newS3Client := fun cfg => Return {| config := cfg |};
     sendListBuckets := fun _ w =>
       (Return {| Buckets := Some [ {| Name := Some "my-bucket";
                                       CreationDate := Some 1600000000000 |} ] |}, w);
     sendListObjectsV2 := fun _ _ w => (Return listing, w);
     sendDeleteObject := fun _ _ w => (Return tt, w);
     sendPutObject := fun _ _ w => (Return tt, w);
     getSignedUrl := fun _ input options w =>
       if expiresIn options =? 3600
       then (Return ("https://" +:+ go_Bucket input +:+ ".s3.amazonaws.com/"
                     +:+ go_Key input +:+ "?X-Amz-Expires=3600"), w)
       else (Throw {| message := "unsupported expiry" |}, w) |}.

(** A provider whose client constructor throws. *)
Definition failingSdk : Sdk unit :=
  {| newS3Client := fun _ => Throw {| message := "Region is missing" |};
     sendListBuckets := fun _ w => (Throw {| message := "unreachable" |}, w);
     sendListObjectsV2 := fun _ _ w => (Throw {| message := "unreachable" |}, w);
     sendDeleteObject := fun _ _ w => (Throw {| message := "unreachable" |}, w);
     sendPutObject := fun _ _ w => (Throw {| message := "unreachable" |}, w);
     getSignedUrl := fun _ _ _ w => (Throw {| message := "unreachable" |}, w) |}.

(** The store after one connect with [credsA], and a server around it. *)
Definition storeA : MemStorage :=
  snd (createSession sampleToString36 0 1000 credsA Storage.empty).

Definition serverA : Server unit :=
  {| storage := storeA; awsService := unbound; world := tt |}.

Definition cookieA : Request := {| req_sessionId := Some "82mvyr" |}.
Definition noCookie : Request := {| req_sessionId := None |}.

(** Request bodies of [POST /api/connect/credentials]. *)
Definition payloadA : gmap string json :=
  {[ "accessKeyId" := JString "AKIAEXAMPLEA";
     "secretAccessKey" := JString "secretA";
     "region" := JString "eu-west-1";
     "remember" := JBool true ]}.

Definition payloadNoRegion : gmap string json :=
  {[ "accessKeyId" := JString "AKIAEXAMPLEA";
     "secretAccessKey" := JString EmptyString ]}.

Definition payloadNullToken : gmap string json :=
  <["sessionToken" := JNull]> payloadA.
End Samples.

(** ** shared/schema.ts: the role schema *)

Module RoleSchema.
Import Schema.

Record RoleAssumption := {
  roleArn : string;
  role_region : string;
  sessionName : option string;
}.

(** [roleAssumptionSchema]: a [z.object] of three keys, read like
    [awsCredentialsSchema]. *)
Definition roleAssumptionSchema : schema RoleAssumption :=
  fun input =>
    match input with
    | Some (JObject fields) =>
        let a := at_key "roleArn" (z_min 1 "Role ARN is required" z_string) fields in
        let r := at_key "region" (z_min 1 "Region is required" z_string) fields in
        let n := at_key "sessionName" (z_optional z_string) fields in
        match a, r, n with
        | inr a', inr r', inr n' =>
            inr {| roleArn := a'; role_region := r'; sessionName := n' |}
        | _, _, _ => inl (issues_of a ++ issues_of r ++ issues_of n)%list
        end
    | _ => inl [type_issue "object" input]
    end.

(** The keys of the shape of [awsCredentialsSchema]. *)
Definition credentialKeys : list string :=
  ["accessKeyId"; "secretAccessKey"; "region"; "sessionToken"].

End RoleSchema.

(** ** server/storage.ts: the stores a process goes through *)

Module StorageRuns.
Import Schema Storage.

(** The stores reached from [new MemStorage()] by calls of
    [createSession] and [deleteSession]. *)
Inductive reachable (toString36 : Js.Number -> string) : MemStorage -> Prop :=
| reachable_empty : reachable toString36 Storage.empty
| reachable_create rnd now creds st :
    reachable toString36 st ->
    reachable toString36 (snd (createSession toString36 rnd now creds st))
| reachable_delete sessionId st :
    reachable toString36 st ->
    reachable toString36 (deleteSession sessionId st).

End StorageRuns.

(** ** server/services/aws.ts: role assumption *)

Module AwsRole.
Import Js Schema RoleSchema Aws.

Record STSClient := { sts_region : string }.

Record AssumeRoleInput := {
  RoleArn : string;
  RoleSessionName : string;
}.

(** The temporary credentials of an [AssumeRole] response.  The two fields
    the code reads with a non-null assertion are members the service
    declares required. *)
Record StsCredentials := {
  AccessKeyId : string;
  SecretAccessKey : string;
  SessionToken : option string;
}.

Record AssumeRoleOutput := { Credentials : option StsCredentials }.

(** The security-token side of the SDK: constructing a client for a region
    (with the credentials of the process's environment) and sending the
    command. *)
Record Sts (World : Type) := {
  newSTSClient : string -> completion STSClient;
  sendAssumeRole :
    STSClient -> AssumeRoleInput -> World -> completion AssumeRoleOutput * World;
}.
Arguments newSTSClient {World}.
Arguments sendAssumeRole {World}.

(** [roleConfig.sessionName || 'S3ClientSession'] *)
Definition roleSessionName (roleConfig : RoleAssumption) : string :=
  match sessionName roleConfig with
  | Some n => if truthy n then n else "S3ClientSession"
  | None => "S3ClientSession"
  end.

Definition no_credentials : Error :=
  {| message := "Failed to assume role - no credentials returned" |}.

(** [initializeWithRole]: everything sits in one [try] whose [catch] logs
    and rethrows. *)
Definition initializeWithRole {World} (sdk : Sdk World) (sts : Sts World)
    (roleConfig : RoleAssumption) : Op World AwsCredentials :=
  fun svc w =>
    match newSTSClient sts (role_region roleConfig) with
    | Throw e => (Throw e, svc, w)
    | Return stsClient =>
        match sendAssumeRole sts stsClient
                {| RoleArn := roleArn roleConfig;
                   RoleSessionName := roleSessionName roleConfig |} w with
        | (Throw e, w') => (Throw e, svc, w')
        | (Return response, w') =>
            match Credentials response with
            | None => (Throw no_credentials, svc, w')
            | Some c =>
                let credentials :=
                  {| accessKeyId := AccessKeyId c;
                     secretAccessKey := SecretAccessKey c;
                     sessionToken := SessionToken c;
                     region := role_region roleConfig |} in
                match initializeWithCredentials sdk credentials svc w' with
                | (Return _, svc', w'') => (Return credentials, svc', w'')
                | (Throw e, svc', w'') => (Throw e, svc', w'')
                end
            end
        end
    end.

(** The configuration [initializeWithCredentials] hands to [new S3Client]. *)
Definition configOf (creds : AwsCredentials) : S3ClientConfig :=
  {| cfg_accessKeyId := accessKeyId creds;
     cfg_secretAccessKey := secretAccessKey creds;
     cfg_sessionToken := sessionToken creds;
     cfg_region := region creds |}.

End AwsRole.

(** ** The other route handlers of [registerRoutes] *)

Module Api.
Import Js Schema RoleSchema Storage Aws AwsRole Routes.

(** The [error] member of an error body.  The message of a [ZodError] is
    the JSON text of its issues: it is kept as the issues. *)
Inductive ApiError :=
| Issues (issues : list ZodIssue)
| Message (msg : string).

(** The JSON bodies of the connect and object handlers. *)
Inductive ApiBody :=
| Connected (sessionId : string)
| ObjectList (objects : list S3Object)
| DownloadUrl (downloadUrl : string)
| Succeeded
| Failed (error : ApiError).

(** A response, and the id the handler wrote into the cookie session
    ([req.session.sessionId = ...]), if it wrote one. *)
Record ApiResponse := {
  api_status : Z;
  api_body : ApiBody;
  api_cookie : option string;
}.

Definition reply (code : Z) (b : ApiBody) : ApiResponse :=
  {| api_status := code; api_body := b; api_cookie := None |}.

Definition rebound {World} (srv : Server World) (svc : AwsService) (w : World)
  : Server World :=
  {| storage := storage srv; awsService := svc; world := w |}.

(** [POST /api/connect/credentials], with the draw and the clock reading
    [createSession] makes. *)
Definition connectCredentials {World} (sdk : Sdk World)
    (toString36 : Js.Number -> string) (rnd : Js.Number) (now : Js.Date)
    (body : option json) (srv : Server World) : ApiResponse * Server World :=
  match parse awsCredentialsSchema body with
  | ThrowZodError issues => (reply 400 (Failed (Issues issues)), srv)
  | Parsed credentials =>
      match initializeWithCredentials sdk credentials (awsService srv) (world srv) with
      | (Throw e, svc, w) => (reply 400 (Failed (Message (message e))), rebound srv svc w)
      | (Return _, svc, w) =>
          let '(session, st) :=
            createSession toString36 rnd now credentials (storage srv) in
          ({| api_status := 200; api_body := Connected (id session);
              api_cookie := Some (id session) |},
           {| storage := st; awsService := svc; world := w |})
      end
  end.

(** [POST /api/connect/role] *)
Definition connectRole {World} (sdk : Sdk World) (sts : Sts World)
    (toString36 : Js.Number -> string) (rnd : Js.Number) (now : Js.Date)
    (body : option json) (srv : Server World) : ApiResponse * Server World :=
  match parse roleAssumptionSchema body with
  | ThrowZodError issues => (reply 400 (Failed (Issues issues)), srv)
  | Parsed roleConfig =>
      match initializeWithRole sdk sts roleConfig (awsService srv) (world srv) with
      | (Throw e, svc, w) => (reply 400 (Failed (Message (message e))), rebound srv svc w)
      | (Return credentials, svc, w) =>
          let '(session, st) :=
            createSession toString36 rnd now credentials (storage srv) in
          ({| api_status := 200; api_body := Connected (id session);
              api_cookie := Some (id session) |},
           {| storage := st; awsService := svc; world := w |})
      end
  end.

(** The first lines of each of the object handlers: the session of the
    request, or the 401 answer. *)
Definition sessionOf {World} (req : Request) (srv : Server World)
  : ApiResponse + S3Session :=
  match req_sessionId req with
  | None => inl (reply 401 (Failed (Message "Not connected")))
  | Some sessionId =>
      if negb (truthy sessionId)
      then inl (reply 401 (Failed (Message "Not connected")))
      else
        match getSession sessionId (storage srv) with
        | None => inl (reply 401 (Failed (Message "Invalid session")))
        | Some session => inr session
        end
  end.

(** The end of each of the object handlers: the body of a result, a 500
    with the message of what was thrown. *)
Definition respond {World A} (srv : Server World) (toBody : A -> ApiBody)
    (r : completion A * AwsService * World) : ApiResponse * Server World :=
  match r with
  | (Return a, svc, w) => (reply 200 (toBody a), rebound srv svc w)
  | (Throw e, svc, w) => (reply 500 (Failed (Message (message e))), rebound srv svc w)
  end.

(** [await a; await b] inside one [try]. *)
Definition andThen {World A B} (a : Op World A) (b : A -> Op World B) : Op World B :=
  fun svc w =>
    match a svc w with
    | (Return x, svc', w') => b x svc' w'
    | (Throw e, svc', w') => (Throw e, svc', w')
    end.

(** An argument whose evaluation may throw, between two awaits. *)
Definition evaluate {World A} (v : completion A) : Op World A :=
  fun svc w => (v, svc, w).

(** [GET /api/buckets/:bucketName/objects]: [prefix] is the query
    parameter, [''] when it is not given; the delimiter is left to its
    default. *)
Definition getObjects {World} (sdk : Sdk World) (req : Request)
    (bucketName : string) (prefix : option string) (srv : Server World)
  : ApiResponse * Server World :=
  match sessionOf req srv with
  | inl unauthorized => (unauthorized, srv)
  | inr session =>
      respond srv ObjectList
        (andThen (initializeWithCredentials sdk (credentials session))
           (fun _ => listObjects sdk bucketName (Some (default EmptyString prefix)) None)
           (awsService srv) (world srv))
  end.

(** The handler registered for [GET
    /api/buckets/:bucketName/objects/:key/download].  It is registered
    after the handler of [GET /api/buckets/:bucketName/objects*], whose
    pattern covers these paths as well, so this is the body of the handler
    and not the answer of the server to such a request.
    [decodeURIComponent] is the engine's; it throws on a malformed escape. *)
Definition getDownload {World} (sdk : Sdk World)
    (decodeURIComponent : string -> completion string) (req : Request)
    (bucketName key : string) (srv : Server World) : ApiResponse * Server World :=
  match sessionOf req srv with
  | inl unauthorized => (unauthorized, srv)
  | inr session =>
      respond srv DownloadUrl
        (andThen (initializeWithCredentials sdk (credentials session))
           (fun _ => andThen (evaluate (decodeURIComponent key))
                       (fun decoded => getDownloadUrl sdk bucketName decoded))
           (awsService srv) (world srv))
  end.

(** [DELETE /api/buckets/:bucketName/objects/:key] *)
Definition deleteKey {World} (sdk : Sdk World)
    (decodeURIComponent : string -> completion string) (req : Request)
    (bucketName key : string) (srv : Server World) : ApiResponse * Server World :=
  match sessionOf req srv with
  | inl unauthorized => (unauthorized, srv)
  | inr session =>
      respond srv (fun _ => Succeeded)
        (andThen (initializeWithCredentials sdk (credentials session))
           (fun _ => andThen (evaluate (decodeURIComponent key))
                       (fun decoded => deleteObject sdk bucketName decoded))
           (awsService srv) (world srv))
  end.

(** [POST /api/buckets/:bucketName/upload]: [file] is the buffer of the
    uploaded part, [key] the form field, either possibly missing. *)
Definition upload {World} (sdk : Sdk World) (req : Request)
    (bucketName : string) (file key : option string) (srv : Server World)
  : ApiResponse * Server World :=
  match sessionOf req srv with
  | inl unauthorized => (unauthorized, srv)
  | inr session =>
      match file with
      | None => (reply 400 (Failed (Message "No file provided")), srv)
      | Some buffer =>
          match key with
          | None => (reply 400 (Failed (Message "No key provided")), srv)
          | Some k =>
              if negb (truthy k)
              then (reply 400 (Failed (Message "No key provided")), srv)
              else
                respond srv (fun _ => Succeeded)
                  (andThen (initializeWithCredentials sdk (credentials session))
                     (fun _ => uploadObject sdk bucketName k buffer)
                     (awsService srv) (world srv))
          end
      end
  end.

End Api.

(** ** client/src/components/file-browser.tsx: paths *)

Module Client.
Import Js.

(** [s.split(sep)] for a separator of one character: the pieces between
    the separators, the empty ones included; one piece, the empty string,
    for the empty string. *)
Fixpoint split (sep : Ascii.ascii) (s : string) : list string :=
  match s with
  | EmptyString => [EmptyString]
  | String ch s' =>
      if Ascii.eqb ch sep then EmptyString :: split sep s'
      else
        match split sep s' with
        | piece :: pieces => String ch piece :: pieces
        | [] => [String ch EmptyString]
        end
  end.

(** The character [/], code 47. *)
Definition slash : Ascii.ascii := Ascii.Ascii true true true true false true false false.

(** [key.split('/').filter(Boolean)]: the non-empty pieces. *)
Definition segments (path : string) : list string :=
  List.filter truthy (split slash path).

Record BreadcrumbItem := {
  crumb_name : string;
  crumb_path : string;
}.

(** The loop of [getBreadcrumbs]: [path += part + '/'] and a crumb for
    each part. *)
Fixpoint crumbsFrom (path : string) (parts : list string) : list BreadcrumbItem :=
  match parts with
  | [] => []
  | part :: rest =>
      let path' := path +:+ part +:+ "/" in
      {| crumb_name := part; crumb_path := path' |} :: crumbsFrom path' rest
  end.

(** [getBreadcrumbs()], of the selected bucket and the current path. *)
Definition getBreadcrumbs (selectedBucket currentPath : string) : list BreadcrumbItem :=
  {| crumb_name := selectedBucket; crumb_path := EmptyString |}
  :: (if truthy currentPath then crumbsFrom EmptyString (segments currentPath)
      else []).

(** [pieces.pop() || key] *)
Definition popOr (pieces : list string) (key : string) : string :=
  match List.last (map Some pieces) None with
  | Some piece => if truthy piece then piece else key
  | None => key
  end.

(** The name shown for a listed object. *)
Definition displayName (key : string) (isFolder : bool) : string :=
  if isFolder then popOr (segments key) key else popOr (split slash key) key.

(** A string without a slash. *)
Fixpoint slashFree (s : string) : bool :=
  match s with
  | EmptyString => true
  | String ch s' => negb (Ascii.eqb ch slash) && slashFree s'
  end.

(** A folder name: not empty and without a slash. *)
Definition folderName (s : string) : bool := truthy s && slashFree s.

(** The key of the folder reached through the folders [names]: each name
    followed by a slash. *)
Fixpoint folderKey (names : list string) : string :=
  match names with
  | [] => EmptyString
  | n :: rest => n +:+ "/" +:+ folderKey rest
  end.

End Client.

(** ** Notions about requests *)

Module ApiNotions.
Import Js Schema Storage Aws AwsRole Routes Api.

(** The cookie of the request resolves to [session]: it carries a
    non-empty id under which the store holds [session]. *)
Definition hasSession {World} (req : Request) (srv : Server World)
    (session : S3Session) : Prop :=
  exists sessionId,
    req_sessionId req = Some sessionId
    /\ truthy sessionId = true
    /\ getSession sessionId (storage srv) = Some session.

(** The cookie of the request resolves to no session. *)
Definition noSession {World} (req : Request) (srv : Server World) : Prop :=
  forall sessionId,
    req_sessionId req = Some sessionId ->
    truthy sessionId = true ->
    getSession sessionId (storage srv) = None.

(** The server with another client bound. *)
Definition withService {World} (srv : Server World) (svc : AwsService)
  : Server World :=
  {| storage := storage srv; awsService := svc; world := world srv |}.

(** A request presenting [sessionId] in its cookie. *)
Definition withCookie (sessionId : string) : Request :=
  {| req_sessionId := Some sessionId |}.

End ApiNotions.

(** ** More sample inputs *)

Module MoreSamples.
Import Js Schema RoleSchema Storage Aws AwsRole Routes Api ApiNotions Samples.

(** A body with a key of the wrong kind and a token of the wrong kind. *)
Definition payloadWrongKinds : gmap string json :=
  {[ "accessKeyId" := JNumber 42;
     "secretAccessKey" := JString "secretA";
     "region" := JString "eu-west-1";
     "sessionToken" := JBool false ]}.

(** A token service that grants every role in every region. *)
Definition sampleSts : Sts unit :=
  {| newSTSClient := fun r => Return {| sts_region := r |};
     sendAssumeRole := fun _ input w =>
       (Return {| Credentials :=
                    Some {| AccessKeyId := "ASIATEMPORARY";
                            SecretAccessKey := "temporarySecret";
                            SessionToken := Some ("token-for-" +:+ RoleSessionName input) |} |},
        w) |}.

(** A token service that answers without credentials. *)
Definition emptySts : Sts unit :=
  {| newSTSClient := fun r => Return {| sts_region := r |};
     sendAssumeRole := fun _ _ w => (Return {| Credentials := None |}, w) |}.

Definition roleA : RoleAssumption :=
  {| roleArn := "arn:aws:iam::123456789012:role/reader"; role_region := "eu-west-1";
     sessionName := Some EmptyString |}.

Definition rolePayload : gmap string json :=
  {[ "roleArn" := JString "arn:aws:iam::123456789012:role/reader";
     "region" := JString "eu-west-1" ]}.

(** The engine's decoding, for the keys used here: a key with a lone
    percent sign is malformed, any other is taken as it is. *)
Definition sampleDecode (k : string) : completion string :=
  if includes k "%" then Throw {| message := "URI malformed" |} else Return k.

(** A provider that rejects every call for want of permission. *)
Definition deniedSdk : Sdk unit :=
  {| newS3Client := fun cfg => Return {| config := cfg |};
     sendListBuckets := fun _ w => (Throw {| message := "Access Denied" |}, w);
     sendListObjectsV2 := fun _ _ w => (Throw {| message := "Access Denied" |}, w);
     sendDeleteObject := fun _ _ w => (Throw {| message := "Access Denied" |}, w);
     sendPutObject := fun _ _ w => (Throw {| message := "Access Denied" |}, w);
     getSignedUrl := fun _ _ _ w => (Throw {| message := "Access Denied" |}, w) |}.

(** A server on which another session's client is bound. *)
Definition serverB : Server unit :=
  {| storage := storeA; awsService := bound; world := tt |}.

(** A connect body with the credentials [credsB]. *)
Definition payloadB : gmap string json :=
  {[ "accessKeyId" := JString "AKIAEXAMPLEB";
     "secretAccessKey" := JString "secretB";
     "region" := JString "us-east-1";
     "sessionToken" := JString "token" ]}.

(** The client [new S3Client] builds from [credsB]. *)
Definition clientB : S3Client :=
  {| config := {| cfg_accessKeyId := "AKIAEXAMPLEB"; cfg_secretAccessKey := "secretB";
                  cfg_sessionToken := Some "token"; cfg_region := "us-east-1" |} |}.

Definition sessionA : S3Session :=
  {| id := "82mvyr"; credentials := credsA; createdAt := 1000 |}.

End MoreSamples.

(** * Properties *)

Import Js Schema Storage Aws Routes Samples.

(** ** The session store *)

Section SessionStore.

Variable toString36 : Js.Number -> string.

Lemma createSession_id rnd now creds st :
  id (fst (createSession toString36 rnd now creds st)) = newSessionId toString36 rnd.
Proof. reflexivity. Qed.

Lemma createSession_sessions rnd now creds st :
  sessions (snd (createSession toString36 rnd now creds st)) =
  <[newSessionId toString36 rnd := fst (createSession toString36 rnd now creds st)]>
    (sessions st).
Proof. reflexivity. Qed.

(** C4: looking up the id [createSession] returned gives back the session
    just created, which holds the record passed in; and once an id has been
    deleted, looking it up gives [undefined]. *)
Theorem getSession_createSession_deleteSession :
  (forall rnd now creds st,
      let session := fst (createSession toString36 rnd now creds st) in
      let st' := snd (createSession toString36 rnd now creds st) in
      getSession (id session) st' = Some session /\ credentials session = creds)
  /\ (forall sessionId st, getSession sessionId (deleteSession sessionId st) = None).
Proof.
  split.
  - intros rnd now creds st session st'. split; [|reflexivity].
    unfold getSession, st', session.
    rewrite createSession_sessions, createSession_id.
    apply lookup_insert_eq.
  - intros sessionId st. unfold getSession, deleteSession; simpl.
    apply lookup_delete_eq.
Qed.

(** C10: [createSession] changes the store at the returned id only and
    [deleteSession] at the given id only; and when the generated id is
    already taken, [createSession] still returns and the session stored
    under that id is the new one. *)
Theorem store_frame :
  (forall rnd now creds st other,
      other <> id (fst (createSession toString36 rnd now creds st)) ->
      getSession other (snd (createSession toString36 rnd now creds st)) =
      getSession other st)
  /\ (forall sessionId st other,
      other <> sessionId ->
      getSession other (deleteSession sessionId st) = getSession other st)
  /\ (forall rnd now creds st old,
      getSession (newSessionId toString36 rnd) st = Some old ->
      let session := fst (createSession toString36 rnd now creds st) in
      let st' := snd (createSession toString36 rnd now creds st) in
      id session = newSessionId toString36 rnd
      /\ credentials session = creds
      /\ createdAt session = now
      /\ getSession (newSessionId toString36 rnd) st' = Some session
      /\ dom (sessions st') = dom (sessions st)).
Proof.
  split; [|split].
  - intros rnd now creds st other Hne. unfold getSession.
    rewrite createSession_sessions. rewrite createSession_id in Hne.
    apply lookup_insert_ne. congruence.
  - intros sessionId st other Hne. unfold getSession, deleteSession; simpl.
    apply lookup_delete_ne. congruence.
  - intros rnd now creds st old Hold session st'.
    repeat split.
    + unfold getSession, st'. rewrite createSession_sessions.
      apply lookup_insert_eq.
    + unfold st'. rewrite createSession_sessions.
      apply dom_insert_lookup_L. eexists; exact Hold.
Qed.

End SessionStore.

Example newSessionId_sample : newSessionId sampleToString36 0 = "82mvyr".
Proof. reflexivity. Qed.

(** A rendering of seven characters or fewer (0.5 is [0.i] at radix 36)
    leaves the empty id. *)
Example newSessionId_short : newSessionId (fun _ => "0.i") 0 = EmptyString.
Proof. reflexivity. Qed.

(** Two sessions created from the same draw: the second takes the place of
    the first, a session under another id stays. *)
Lemma store_frame_witness :
  let st0 := {| sessions := {[ "other" := {| id := "other"; credentials := credsA;
                                              createdAt := 5 |} ]} |} in
  let st1 := snd (createSession sampleToString36 0 1000 credsA st0) in
  let st2 := snd (createSession sampleToString36 0 2000 credsB st1) in
  getSession "other" st2 = getSession "other" st1
  /\ getSession "other" (deleteSession "82mvyr" st2) = getSession "other" st2
  /\ getSession "82mvyr" st2
     = Some {| id := "82mvyr"; credentials := credsB; createdAt := 2000 |}.
Proof.
  intros st0 st1 st2.
  destruct (store_frame sampleToString36) as (Hcreate & Hdelete & Hreplace).
  split; [|split].
  - apply Hcreate. discriminate.
  - apply Hdelete. discriminate.
  - apply (Hreplace 0 2000 credsB st1
             {| id := "82mvyr"; credentials := credsA; createdAt := 1000 |}).
    vm_compute. reflexivity.
Defined.

(** ** How many session ids there are *)

Section SessionIds.

(** Pairwise distinct integers of [0, n) are at most [n]. *)
Lemma NoDup_below_length (l : list Z) (n : Z) :
  0 <= n -> NoDup l -> (forall x, x ∈ l -> 0 <= x < n) ->
  Z.of_nat (length l) <= n.
Proof.
  intros Hn Hnd Hrange.
  assert (l ⊆+ seqZ 0 n) as Hsub.
  { apply NoDup_submseteq; [exact Hnd|].
    intros x Hx. apply elem_of_seqZ. specialize (Hrange x Hx). lia. }
  apply submseteq_length in Hsub. rewrite length_seqZ in Hsub. lia.
Qed.

Variable toString36 : Js.Number -> string.

(** Every possible id comes from a draw. *)
Lemma possibleSessionId_draws (ids : list string) :
  Forall (possibleSessionId toString36) ids ->
  exists draws, ids = newSessionId toString36 <$> draws
                /\ Forall Js.is_random_draw draws.
Proof.
  induction 1 as [|sid ids Hsid _ IH].
  - exists []. split; [reflexivity|constructor].
  - destruct Hsid as (rnd & now & creds & st & Hrnd & ->).
    destruct IH as (draws & -> & Hdraws).
    exists (rnd :: draws). split; [reflexivity|]. constructor; assumption.
Qed.

(** Whatever the engine's rendering, pairwise distinct possible ids are no
    more than the values [Math.random()] can return. *)
Lemma possibleSessionId_count (ids : list string) :
  NoDup ids -> Forall (possibleSessionId toString36) ids ->
  Z.of_nat (length ids) <= 1023 * 2 ^ 52.
Proof.
  intros Hnd Hall.
  destruct (possibleSessionId_draws ids Hall) as (draws & -> & Hdraws).
  rewrite length_fmap. apply NoDup_fmap_1 in Hnd.
  apply NoDup_below_length; [lia|exact Hnd|].
  intros x Hx. rewrite Forall_forall in Hdraws. exact (Hdraws x Hx).
Qed.

End SessionIds.

(** C9: the ids [createSession] can return do not number [2^128]: no
    family of [2^128] pairwise distinct ids consists of possible ids, for
    any rendering [toString36] the engine may have. *)
Theorem sessionId_space_below_2_128 :
  ~ exists (toString36 : Js.Number -> string) (ids : list string),
      NoDup ids
      /\ Forall (possibleSessionId toString36) ids
      /\ 2 ^ 128 <= Z.of_nat (length ids).
Proof.
  intros (toString36 & ids & Hnd & Hall & Hlen).
  pose proof (possibleSessionId_count toString36 ids Hnd Hall) as Hle.
  assert (1023 * 2 ^ 52 < 2 ^ 128) by (vm_compute; reflexivity).
  lia.
Qed.

(** ** The credential schema *)

Section CredentialSchema.

(** A payload with an issue under some key is rejected with all of them. *)
Lemma parse_rejects fields :
  keyIssues fields <> [] ->
  parse awsCredentialsSchema (Some (JObject fields)) = ThrowZodError (keyIssues fields).
Proof.
  unfold keyIssues, parse, awsCredentialsSchema, requiredString.
  destruct (at_key "accessKeyId" _ fields) as [ia|a];
    destruct (at_key "secretAccessKey" _ fields) as [is_|s];
    destruct (at_key "region" _ fields) as [ir|r];
    destruct (at_key "sessionToken" _ fields) as [it|t];
    simpl; intros Hne; try reflexivity.
  congruence.
Qed.

(** A required key that is missing or holds the empty string raises an
    issue whose path is that key. *)
Lemma requiredString_issue (k msg : string) (fields : gmap string json) :
  fields !! k = None \/ fields !! k = Some (JString EmptyString) ->
  exists i, at_key k (requiredString msg) fields = inl [i] /\ path i = [k].
Proof.
  unfold at_key, requiredString, z_min, z_string.
  intros [-> | ->]; simpl; eexists; (split; [reflexivity|reflexivity]).
Qed.

Lemma requiredString_accepts (k msg s : string) (fields : gmap string json) :
  fields !! k = Some (JString s) -> s <> EmptyString ->
  at_key k (requiredString msg) fields = inr s.
Proof.
  unfold at_key, requiredString, z_min, z_string.
  intros -> Hs. destruct s as [|c s]; [congruence|reflexivity].
Qed.

Lemma requiredString_inr_iff (k msg s : string) (fields : gmap string json) :
  at_key k (requiredString msg) fields = inr s
  <-> fields !! k = Some (JString s) /\ s <> EmptyString.
Proof.
  split.
  - unfold at_key, requiredString, z_min, z_string.
    destruct (fields !! k) as [[| | |s'| |]|]; simpl; try discriminate.
    destruct s' as [|ch s']; simpl; [discriminate|].
    intros H; inversion H; subst. split; [reflexivity|discriminate].
  - intros [Hk Hs]. exact (requiredString_accepts k msg s fields Hk Hs).
Qed.

Lemma optionalString_inr_iff (k : string) (t : option string)
    (fields : gmap string json) :
  at_key k (z_optional z_string) fields = inr t <-> fields !! k = JString <$> t.
Proof.
  unfold at_key, z_optional, z_string.
  destruct (fields !! k) as [[| | |s'| |]|]; simpl;
    (split; [intros H; inversion H; subst; reflexivity
            |destruct t; simpl; intros H; inversion H; subst; reflexivity]).
Qed.

(** The payloads the schema accepts, and what it makes of them. *)
Lemma parse_Parsed_iff (fields : gmap string json) (c : AwsCredentials) :
  parse awsCredentialsSchema (Some (JObject fields)) = Parsed c
  <-> (fields !! "accessKeyId" = Some (JString (accessKeyId c))
       /\ accessKeyId c <> EmptyString)
      /\ (fields !! "secretAccessKey" = Some (JString (secretAccessKey c))
          /\ secretAccessKey c <> EmptyString)
      /\ (fields !! "region" = Some (JString (region c)) /\ region c <> EmptyString)
      /\ fields !! "sessionToken" = JString <$> sessionToken c.
Proof.
  rewrite <- (requiredString_inr_iff "accessKeyId" "Access Key ID is required"),
    <- (requiredString_inr_iff "secretAccessKey" "Secret Access Key is required"),
    <- (requiredString_inr_iff "region" "Region is required"),
    <- optionalString_inr_iff.
  unfold parse, awsCredentialsSchema.
  fold (requiredString "Access Key ID is required").
  fold (requiredString "Secret Access Key is required").
  fold (requiredString "Region is required").
  destruct (at_key "accessKeyId" _ fields) as [ia|a];
    destruct (at_key "secretAccessKey" _ fields) as [is_|s];
    destruct (at_key "region" _ fields) as [ir|r];
    destruct (at_key "sessionToken" _ fields) as [it|t]; simpl;
    (split; [intros H; inversion H; subst; simpl; repeat split
            |intros (Ha & Hs & Hr & Ht); try discriminate]).
  destruct c; simpl in *. congruence.
Qed.

Lemma parse_accepts fields a s r t :
  fields !! "accessKeyId" = Some (JString a) -> a <> EmptyString ->
  fields !! "secretAccessKey" = Some (JString s) -> s <> EmptyString ->
  fields !! "region" = Some (JString r) -> r <> EmptyString ->
  fields !! "sessionToken" = JString <$> t ->
  parse awsCredentialsSchema (Some (JObject fields))
  = Parsed {| accessKeyId := a; secretAccessKey := s; region := r;
              sessionToken := t |}.
Proof.
  intros Ha Ha' Hs Hs' Hr Hr' Ht. apply parse_Parsed_iff. simpl. tauto.
Qed.

Lemma parse_names_key fields k :
  In k requiredKeys ->
  fields !! k = None \/ fields !! k = Some (JString EmptyString) ->
  exists issues i,
    parse awsCredentialsSchema (Some (JObject fields)) = ThrowZodError issues
    /\ In i issues /\ path i = [k].
Proof.
  intros Hk Hmissing.
  assert (exists i, In i (keyIssues fields) /\ path i = [k]) as (i & Hin & Hpath).
  { unfold keyIssues. simpl in Hk.
    destruct Hk as [<-|[<-|[<-|[]]]].
    - destruct (requiredString_issue _ "Access Key ID is required" fields Hmissing)
        as (i & -> & Hp).
      exists i. split; [|exact Hp]. simpl. left. reflexivity.
    - destruct (requiredString_issue _ "Secret Access Key is required" fields Hmissing)
        as (i & -> & Hp).
      exists i. split; [|exact Hp].
      apply in_or_app. right. simpl. left. reflexivity.
    - destruct (requiredString_issue _ "Region is required" fields Hmissing)
        as (i & -> & Hp).
      exists i. split; [|exact Hp].
      apply in_or_app. right. apply in_or_app. right. simpl. left. reflexivity. }
  exists (keyIssues fields), i. split; [|split; assumption].
  apply parse_rejects. intros Hnil. rewrite Hnil in Hin. exact Hin.
Qed.

(** C3: a payload whose three required keys hold non-empty strings (the
    session token absent or a string) parses to the record of those very
    values; a payload in which a required key is missing or empty is
    rejected with a [ZodError] one of whose issues has that key as path. *)
Theorem awsCredentialsSchema_parse :
  (forall fields a s r t,
      fields !! "accessKeyId" = Some (JString a) -> a <> EmptyString ->
      fields !! "secretAccessKey" = Some (JString s) -> s <> EmptyString ->
      fields !! "region" = Some (JString r) -> r <> EmptyString ->
      fields !! "sessionToken" = JString <$> t ->
      parse awsCredentialsSchema (Some (JObject fields))
      = Parsed {| accessKeyId := a; secretAccessKey := s; region := r;
                  sessionToken := t |})
  /\ (forall fields k,
      In k requiredKeys ->
      fields !! k = None \/ fields !! k = Some (JString EmptyString) ->
      exists issues i,
        parse awsCredentialsSchema (Some (JObject fields)) = ThrowZodError issues
        /\ In i issues /\ path i = [k]).
Proof. split; [exact parse_accepts|exact parse_names_key]. Qed.

End CredentialSchema.

(** ** The gateway: listing objects *)

Section ListObjects.

Context {World : Type} (sdk : Sdk World).

(** With a bound client [listObjects] is one call of the provider, whose
    response goes through the two loops and whose rejection is rethrown. *)
Lemma listObjects_bound bucketName prefix delimiter svc c w :
  s3Client svc = Some c ->
  listObjects sdk bucketName prefix delimiter svc w =
  match sendListObjectsV2 sdk c (listRequest bucketName prefix delimiter) w with
  | (Return response, w') =>
      (Return (collectObjects (default EmptyString prefix) response), svc, w')
  | (Throw e, w') => (Throw e, svc, w')
  end.
Proof. intros Hc. unfold listObjects. rewrite Hc. reflexivity. Qed.

Lemma keyIsNot_true prefix o : keyIsNot prefix o = true <-> Key o <> Some prefix.
Proof.
  unfold keyIsNot. destruct (Key o) as [k|]; [|split; [discriminate|reflexivity]].
  rewrite negb_true_iff, String.eqb_neq. split; congruence.
Qed.

Lemma in_collectObjects prefix response o :
  In o (collectObjects prefix response) <->
  (exists cp, In cp (default [] (CommonPrefixes response)) /\ o = folderEntry cp)
  \/ (exists ob, In ob (default [] (Contents response))
                 /\ Key ob <> Some prefix /\ o = fileEntry ob).
Proof.
  unfold collectObjects. rewrite in_app_iff, !in_map_iff.
  split; (intros [(x & H1 & H2)|(x & H1 & H2)]; [left|right]).
  - exists x. split; [exact H2|symmetry; exact H1].
  - apply filter_In in H2 as [Hin Hk]. apply keyIsNot_true in Hk.
    exists x. repeat split; [exact Hin|exact Hk|symmetry; exact H1].
  - exists x. split; [symmetry; exact H2|exact H1].
  - destruct H2 as [Hk ->]. exists x. split; [reflexivity|].
    apply filter_In. split; [exact H1|]. apply keyIsNot_true. exact Hk.
Qed.

(** No file entry carries the queried prefix as its key. *)
Lemma collectObjects_files prefix response o :
  In o (collectObjects prefix response) -> isFolder o = false ->
  key o <> Some prefix.
Proof.
  intros Hin Hfile. apply in_collectObjects in Hin as [(cp & _ & ->)|(ob & _ & Hk & ->)].
  - discriminate Hfile.
  - exact Hk.
Qed.

(** With a bound client and a response of the provider, no file entry of
    the result has the queried prefix as key; and no entry at all has it
    when none of the response's common prefixes is the queried prefix. *)
Lemma listObjects_files_exclude_prefix bucketName prefix delimiter svc c w response w' :
  s3Client svc = Some c ->
  sendListObjectsV2 sdk c (listRequest bucketName prefix delimiter) w
  = (Return response, w') ->
  exists objs,
    listObjects sdk bucketName prefix delimiter svc w = (Return objs, svc, w')
    /\ (forall o, In o objs -> isFolder o = false ->
                  key o <> Some (default EmptyString prefix))
    /\ ((forall cp, In cp (default [] (CommonPrefixes response)) ->
                    Prefix cp <> Some (default EmptyString prefix)) ->
        forall o, In o objs -> key o <> Some (default EmptyString prefix)).
Proof.
  intros Hc Hsend. eexists. split; [|split].
  - rewrite (listObjects_bound _ _ _ _ c) by exact Hc. rewrite Hsend. reflexivity.
  - intros o. apply collectObjects_files.
  - intros Hcps o Hin.
    apply in_collectObjects in Hin as [(cp & Hcp & ->)|(ob & _ & Hk & ->)].
    + exact (Hcps cp Hcp).
    + exact Hk.
Qed.

Lemma length_append (a b : string) :
  String.length (a +:+ b) = (String.length a + String.length b)%nat.
Proof.
  induction a as [|ch a IH]; [reflexivity|].
  change (S (String.length (a +:+ b)) = S (String.length a + String.length b)).
  f_equal. exact IH.
Qed.

(** A common prefix of a listing is not the prefix of its request: it is
    longer by the delimiter at least. *)
Lemma commonPrefix_not_prefix request response cp :
  commonPrefixesExtendPrefix request response ->
  In cp (default [] (CommonPrefixes response)) ->
  Prefix cp <> Some (lo_Prefix request).
Proof.
  intros Hcontract Hin Heq.
  destruct (Hcontract cp Hin) as (Hdelimiter & part & Hcp).
  rewrite Hcp in Heq. inversion Heq as [Hlen].
  apply (f_equal String.length) in Hlen. rewrite !length_append in Hlen.
  destruct (lo_Delimiter request) as [|ch d]; [congruence|]. simpl in Hlen. lia.
Qed.

(** C1: with a bound client, for every listing the provider returns (its
    common prefixes being, as the service gives them, extensions of the
    queried prefix by a key part and the delimiter), the sequence
    [listObjects] returns has no entry whose key is the queried prefix,
    neither among the folder entries nor among the file entries. *)
Theorem listObjects_never_prefix bucketName prefix delimiter svc c w response w' :
  s3Client svc = Some c ->
  sendListObjectsV2 sdk c (listRequest bucketName prefix delimiter) w
  = (Return response, w') ->
  commonPrefixesExtendPrefix (listRequest bucketName prefix delimiter) response ->
  exists objs,
    listObjects sdk bucketName prefix delimiter svc w = (Return objs, svc, w')
    /\ forall o, In o objs -> key o <> Some (default EmptyString prefix).
Proof.
  intros Hc Hsend Hcontract. eexists. split.
  - rewrite (listObjects_bound _ _ _ _ c) by exact Hc. rewrite Hsend. reflexivity.
  - intros o Hin.
    apply in_collectObjects in Hin as [(cp & Hcp & ->)|(ob & _ & Hk & ->)].
    + exact (commonPrefix_not_prefix _ _ cp Hcontract Hcp).
    + exact Hk.
Qed.

(** C2: with a bound client and a response of the provider, the sequence
    [listObjects] returns is the folder entries of the common prefixes, in
    the provider's order, followed by file entries only; each common prefix
    has its entry, flagged as folder, with no size, date or etag; and a
    folder entry of the common prefixes stands before every file entry. *)
Theorem listObjects_folders_first bucketName prefix delimiter svc c w response w' :
  s3Client svc = Some c ->
  sendListObjectsV2 sdk c (listRequest bucketName prefix delimiter) w
  = (Return response, w') ->
  let commonPrefixes := default [] (CommonPrefixes response) in
  exists files,
    listObjects sdk bucketName prefix delimiter svc w
    = (Return (map folderEntry commonPrefixes ++ files)%list, svc, w')
    /\ (forall cp, In cp commonPrefixes ->
          In {| key := Prefix cp; size := None; lastModified := None; etag := None;
                storageClass := None; isFolder := true |}
             (map folderEntry commonPrefixes ++ files)%list)
    /\ Forall folderShaped (map folderEntry commonPrefixes)
    /\ Forall (fun o => isFolder o = false) files
    /\ (forall (i j : nat) folder file,
          (map folderEntry commonPrefixes ++ files)%list !! i = Some folder ->
          (map folderEntry commonPrefixes ++ files)%list !! j = Some file ->
          isFolder folder = true -> isFolder file = false -> (i < j)%nat).
Proof.
  intros Hc Hsend commonPrefixes.
  exists (map fileEntry (List.filter (keyIsNot (default EmptyString prefix))
                           (default [] (Contents response)))).
  assert (Forall folderShaped (map folderEntry commonPrefixes)) as Hfolders.
  { apply Forall_forall. intros o Ho. apply list_elem_of_In, in_map_iff in Ho.
    destruct Ho as (cp & <- & _). repeat split. }
  assert (Forall (fun o => isFolder o = false)
            (map fileEntry (List.filter (keyIsNot (default EmptyString prefix))
                              (default [] (Contents response))))) as Hfiles.
  { apply Forall_forall. intros o Ho. apply list_elem_of_In, in_map_iff in Ho.
    destruct Ho as (ob & <- & _). reflexivity. }
  split; [|split; [|split; [|split]]].
  - rewrite (listObjects_bound _ _ _ _ c) by exact Hc. rewrite Hsend. reflexivity.
  - intros cp Hcp. apply in_or_app. left.
    apply in_map_iff. exists cp. split; [reflexivity|exact Hcp].
  - exact Hfolders.
  - exact Hfiles.
  - intros i j folder file Hi Hj Hfo Hfi.
    destruct (Nat.lt_ge_cases i (length (map folderEntry commonPrefixes)))
      as [Hlt|Hge].
    + destruct (Nat.lt_ge_cases j (length (map folderEntry commonPrefixes)))
        as [Hjlt|Hjge]; [|lia].
      rewrite lookup_app_l in Hj by exact Hjlt.
      apply list_elem_of_lookup_2 in Hj.
      rewrite Forall_forall in Hfolders. destruct (Hfolders _ Hj) as [Hf _].
      congruence.
    + rewrite lookup_app_r in Hi by exact Hge.
      apply list_elem_of_lookup_2 in Hi.
      rewrite Forall_forall in Hfiles. specialize (Hfiles _ Hi). simpl in Hfiles.
      congruence.
Qed.

End ListObjects.

(** ** The gateway: operations on an unbound client, and presigning *)

Section Gateway.

Context {World : Type} (sdk : Sdk World).

(** The only service state without a client is the initial one. *)
Lemma unbound_only svc : s3Client svc = None -> svc = unbound.
Proof. destruct svc as [c]; simpl; intros ->; reflexivity. Qed.

(** C5: while no client is bound, each of the five operations throws the
    error "AWS client not initialized" instead of returning, without a call
    to the provider (the service and the world are as before). *)
Theorem unbound_operations_throw svc w :
  s3Client svc = None ->
  listBuckets sdk svc w = (Throw not_initialized, svc, w)
  /\ (forall bucketName prefix delimiter,
        listObjects sdk bucketName prefix delimiter svc w
        = (Throw not_initialized, svc, w))
  /\ (forall bucketName key,
        getDownloadUrl sdk bucketName key svc w = (Throw not_initialized, svc, w))
  /\ (forall bucketName key,
        deleteObject sdk bucketName key svc w = (Throw not_initialized, svc, w))
  /\ (forall bucketName key body,
        uploadObject sdk bucketName key body svc w = (Throw not_initialized, svc, w)).
Proof.
  intros Hnone.
  unfold listBuckets, listObjects, getDownloadUrl, deleteObject, uploadObject.
  rewrite Hnone. repeat split.
Qed.

(** With a bound client, [getDownloadUrl] is one call of the presigner, for
    a retrieval of that key in that bucket with [expiresIn] 3600, made anew
    at every call; what the URL holds and how long it is honoured is the
    presigner's and the provider's doing. *)
Lemma getDownloadUrl_bound bucketName key svc c w :
  s3Client svc = Some c ->
  getDownloadUrl sdk bucketName key svc w
  = (let '(r, w') := getSignedUrl sdk c {| go_Bucket := bucketName; go_Key := key |}
                       {| expiresIn := 3600 |} w in
     (r, svc, w')).
Proof. intros Hc. unfold getDownloadUrl. rewrite Hc. reflexivity. Qed.

End Gateway.

(** ** The routes *)

(** Each conjunct of a statement about a handler, once the handler's
    branch is fixed: the hypotheses either contradict the branch or give
    the answer. *)
Ltac route_cases :=
  repeat split; intros; simplify_eq/=;
  first [ congruence
        | left; reflexivity
        | right; eexists; reflexivity
        | eexists _, _; repeat split; eassumption ].

Section RouteProperties.

Context {World : Type} (sdk : Sdk World).

(** C7: [GET /api/connection/status] always answers 200; the body is
    [{connected: false}] when the cookie carries no session id, when the
    store has no session under it, and when initializing the client throws;
    it is [{connected: true, region}] exactly for a non-empty id with a
    stored session whose client initializes, with that session's region. *)
Theorem connectionStatus_never_errors req srv :
  let res := fst (connectionStatus sdk req srv) in
  status res = 200
  /\ (req_sessionId req = None -> body res = notConnected)
  /\ (forall sessionId, req_sessionId req = Some sessionId ->
        getSession sessionId (storage srv) = None -> body res = notConnected)
  /\ (forall sessionId session e svc w,
        req_sessionId req = Some sessionId ->
        getSession sessionId (storage srv) = Some session ->
        initializeWithCredentials sdk (credentials session) (awsService srv) (world srv)
        = (Throw e, svc, w) ->
        body res = notConnected)
  /\ (forall sessionId session u svc w,
        req_sessionId req = Some sessionId ->
        truthy sessionId = true ->
        getSession sessionId (storage srv) = Some session ->
        initializeWithCredentials sdk (credentials session) (awsService srv) (world srv)
        = (Return u, svc, w) ->
        body res = ConnectionStatus true (Some (region (credentials session))))
  /\ (forall r, body res = ConnectionStatus true r ->
        exists sessionId session,
          req_sessionId req = Some sessionId
          /\ getSession sessionId (storage srv) = Some session
          /\ r = Some (region (credentials session)))
  /\ (body res = notConnected
      \/ exists r, body res = ConnectionStatus true (Some r)).
Proof.
  unfold connectionStatus, notConnected.
  destruct (req_sessionId req) as [sid|]; simpl; [|route_cases].
  destruct (truthy sid) eqn:Htruthy; simpl; [|route_cases].
  destruct (getSession sid (storage srv)) as [session|] eqn:Hget; simpl;
    [|route_cases].
  destruct (initializeWithCredentials sdk (credentials session)
              (awsService srv) (world srv)) as [[[u|e] svc] w] eqn:Hinit; simpl;
    route_cases.
Qed.

(** After a disconnect, a request without a usable id or whose id is not in
    the store is refused by [GET /api/buckets]. *)
Lemma getBuckets_unauthorized req srv :
  (forall sessionId, req_sessionId req = Some sessionId ->
     truthy sessionId = true -> getSession sessionId (storage srv) = None) ->
  status (fst (getBuckets sdk req srv)) = 401.
Proof.
  intros Hgone. unfold getBuckets.
  destruct (req_sessionId req) as [sid|]; [|reflexivity].
  destruct (truthy sid) eqn:Htruthy; [|reflexivity]. simpl.
  rewrite (Hgone sid eq_refl Htruthy). reflexivity.
Qed.

(** [POST /api/disconnect] answers 200 with [{success: true}] whatever
    the cookie, also without a session; after it the id of the cookie, when
    it is a usable one, is not in the store; and [GET /api/buckets] with
    the same cookie answers 401 right after the disconnect, and in a later
    state as long as no session has been added to the store. *)
Lemma disconnect_then_buckets_401 req srv :
  let res := fst (disconnect req srv) in
  let srv' := snd (disconnect (World := World) req srv) in
  status res = 200 /\ body res = Success
  /\ (forall sessionId, req_sessionId req = Some sessionId ->
        truthy sessionId = true -> getSession sessionId (storage srv') = None)
  /\ status (fst (getBuckets sdk req srv')) = 401
  /\ (forall later : Server World,
        sessions (storage later) ⊆ sessions (storage srv') ->
        status (fst (getBuckets sdk req later)) = 401).
Proof.
  intros res srv'.
  assert (forall sessionId, req_sessionId req = Some sessionId ->
            truthy sessionId = true -> getSession sessionId (storage srv') = None)
    as Hgone.
  { intros sid Hreq Htruthy. unfold srv', disconnect. rewrite Hreq, Htruthy.
    simpl. apply lookup_delete_eq. }
  split; [|split; [|split; [|split]]].
  - unfold res, disconnect. destruct (req_sessionId req) as [sid|]; [|reflexivity].
    destruct (truthy sid); reflexivity.
  - unfold res, disconnect. destruct (req_sessionId req) as [sid|]; [|reflexivity].
    destruct (truthy sid); reflexivity.
  - exact Hgone.
  - apply getBuckets_unauthorized. exact Hgone.
  - intros later Hsub. apply getBuckets_unauthorized.
    intros sid Hreq Htruthy. specialize (Hgone sid Hreq Htruthy).
    unfold getSession in *.
    destruct (sessions (storage later) !! sid) as [s|] eqn:Hl; [|reflexivity].
    eapply lookup_weaken in Hl; [|exact Hsub]. congruence.
Qed.

End RouteProperties.

(** * The properties on concrete cases *)

(** ** Credentials *)

Example parse_payloadA :
  parse awsCredentialsSchema (Some (JObject payloadA)) = Parsed credsA.
Proof. vm_compute. reflexivity. Qed.

(** Both the missing region and the empty secret are reported, each under
    its key and with its message. *)
Example parse_payloadNoRegion :
  parse awsCredentialsSchema (Some (JObject payloadNoRegion))
  = ThrowZodError
      [ {| code := too_small; path := ["secretAccessKey"];
           issue_message := "Secret Access Key is required" |};
        {| code := invalid_type; path := ["region"]; issue_message := "Required" |} ].
Proof. vm_compute. reflexivity. Qed.

(** A session token that is present must be a string: [null] is refused. *)
Example parse_payloadNullToken :
  parse awsCredentialsSchema (Some (JObject payloadNullToken))
  = ThrowZodError
      [ {| code := invalid_type; path := ["sessionToken"];
           issue_message := "Expected string, received null" |} ].
Proof. vm_compute. reflexivity. Qed.

(** A body that is no object is refused as a whole. *)
Example parse_array :
  parse awsCredentialsSchema (Some (JArray []))
  = ThrowZodError
      [ {| code := invalid_type; path := [];
           issue_message := "Expected object, received array" |} ].
Proof. vm_compute. reflexivity. Qed.

Lemma awsCredentialsSchema_parse_witness :
  parse awsCredentialsSchema (Some (JObject payloadA)) = Parsed credsA
  /\ exists issues i,
      parse awsCredentialsSchema (Some (JObject payloadNoRegion)) = ThrowZodError issues
      /\ In i issues /\ path i = ["region"].
Proof.
  destruct awsCredentialsSchema_parse as [Hvalid Hmissing]. split.
  - apply (Hvalid payloadA "AKIAEXAMPLEA" "secretA" "eu-west-1" None);
      solve [vm_compute; reflexivity | discriminate].
  - apply (Hmissing payloadNoRegion "region").
    + simpl. right. right. left. reflexivity.
    + left. vm_compute. reflexivity.
Defined.

(** ** Sessions *)

Lemma getSession_createSession_deleteSession_witness :
  getSession "82mvyr" storeA
  = Some {| id := "82mvyr"; credentials := credsA; createdAt := 1000 |}
  /\ getSession "82mvyr" (deleteSession "82mvyr" storeA) = None.
Proof.
  destruct (getSession_createSession_deleteSession sampleToString36)
    as [Hcreate Hdelete].
  split.
  - exact (proj1 (Hcreate 0 1000 credsA Storage.empty)).
  - exact (Hdelete "82mvyr" storeA).
Defined.

(** ** Listings *)

Example listObjects_sampleListing :
  listObjects (sampleSdk sampleListing) "my-bucket" (Some "photos/") None bound tt
  = (Return [ {| key := Some "photos/2024/"; size := None; lastModified := None;
                 etag := None; storageClass := None; isFolder := true |};
              {| key := Some "photos/a.jpg"; size := Some 2048;
                 lastModified := Some 1700000001000; etag := Some "9e107";
                 storageClass := Some "STANDARD"; isFolder := false |} ],
     bound, tt).
Proof. vm_compute. reflexivity. Qed.

Lemma listObjects_folders_first_witness :
  exists files,
    listObjects (sampleSdk sampleListing) "my-bucket" (Some "photos/") None bound tt
    = (Return ({| key := Some "photos/2024/"; size := None; lastModified := None;
                  etag := None; storageClass := None; isFolder := true |} :: files),
       bound, tt)
    /\ Forall (fun o => isFolder o = false) files.
Proof.
  destruct (listObjects_folders_first (sampleSdk sampleListing)
              "my-bucket" (Some "photos/") None bound sampleClient tt sampleListing tt
              eq_refl eq_refl) as (files & Hret & _ & _ & Hfiles & _).
  exists files. split; [exact Hret|exact Hfiles].
Defined.

(** ** The gateway *)

Lemma unbound_operations_throw_witness :
  listBuckets (sampleSdk sampleListing) unbound tt = (Throw not_initialized, unbound, tt)
  /\ listObjects (sampleSdk sampleListing) "my-bucket" None None unbound tt
     = (Throw not_initialized, unbound, tt)
  /\ getDownloadUrl (sampleSdk sampleListing) "my-bucket" "a.txt" unbound tt
     = (Throw not_initialized, unbound, tt)
  /\ deleteObject (sampleSdk sampleListing) "my-bucket" "a.txt" unbound tt
     = (Throw not_initialized, unbound, tt)
  /\ uploadObject (sampleSdk sampleListing) "my-bucket" "a.txt" "hello" unbound tt
     = (Throw not_initialized, unbound, tt).
Proof.
  destruct (unbound_operations_throw (sampleSdk sampleListing) unbound tt eq_refl)
    as (H1 & H2 & H3 & H4 & H5).
  split; [exact H1|]. split; [exact (H2 _ _ _)|]. split; [exact (H3 _ _)|].
  split; [exact (H4 _ _)|exact (H5 _ _ _)].
Defined.

(** Once bound, the same calls reach the provider. *)
Example listBuckets_bound :
  listBuckets (sampleSdk sampleListing) bound tt
  = (Return [ {| name := Some "my-bucket"; bucket_region := "us-east-1";
                 creationDate := Some 1600000000000 |} ], bound, tt).
Proof. reflexivity. Qed.

Lemma append_assoc (a b c : string) : (a +:+ b) +:+ c = a +:+ b +:+ c.
Proof.
  induction a as [|ch a IH]; [reflexivity|].
  change (String ch ((a +:+ b) +:+ c) = String ch (a +:+ b +:+ c)).
  f_equal. exact IH.
Qed.

Example getDownloadUrl_sample :
  getDownloadUrl (sampleSdk sampleListing) "my-bucket" "docs/report.pdf" bound tt
  = (Return "https://my-bucket.s3.amazonaws.com/docs/report.pdf?X-Amz-Expires=3600",
     bound, tt).
Proof. reflexivity. Qed.

(** ** The routes *)

Example connectionStatus_serverA :
  fst (connectionStatus (sampleSdk sampleListing) cookieA serverA)
  = {| status := 200; body := ConnectionStatus true (Some "eu-west-1");
       cookieCleared := false |}.
Proof. vm_compute. reflexivity. Qed.

(** With an id of the empty string (a short rendering of the draw leaves
    it) the session is stored but never found: the check on the id is a
    truthiness test. *)
Example connectionStatus_empty_id :
  let store := snd (createSession (fun _ => "0.i") 0 1000 credsA Storage.empty) in
  getSession EmptyString store
  = Some {| id := EmptyString; credentials := credsA; createdAt := 1000 |}
  /\ fst (connectionStatus (sampleSdk sampleListing)
            {| req_sessionId := Some EmptyString |}
            {| storage := store; awsService := unbound; world := tt |})
     = {| status := 200; body := notConnected; cookieCleared := false |}.
Proof. vm_compute. split; reflexivity. Qed.

Lemma connectionStatus_never_errors_witness :
  body (fst (connectionStatus (sampleSdk sampleListing) cookieA serverA))
  = ConnectionStatus true (Some "eu-west-1")
  /\ body (fst (connectionStatus failingSdk cookieA serverA)) = notConnected
  /\ body (fst (connectionStatus (sampleSdk sampleListing) noCookie serverA))
     = notConnected
  /\ body (fst (connectionStatus (sampleSdk sampleListing)
                  {| req_sessionId := Some "gone" |} serverA)) = notConnected.
Proof.
  split; [|split; [|split]].
  - destruct (connectionStatus_never_errors (sampleSdk sampleListing) cookieA serverA)
      as (_ & _ & _ & _ & Hok & _).
    apply (Hok "82mvyr" {| id := "82mvyr"; credentials := credsA; createdAt := 1000 |}
             tt bound tt); vm_compute; reflexivity.
  - destruct (connectionStatus_never_errors failingSdk cookieA serverA)
      as (_ & _ & _ & Hthrow & _).
    apply (Hthrow "82mvyr" {| id := "82mvyr"; credentials := credsA; createdAt := 1000 |}
             {| message := "Region is missing" |} unbound tt); vm_compute; reflexivity.
  - destruct (connectionStatus_never_errors (sampleSdk sampleListing) noCookie serverA)
      as (_ & Hnone & _).
    apply Hnone. reflexivity.
  - destruct (connectionStatus_never_errors (sampleSdk sampleListing)
                {| req_sessionId := Some "gone" |} serverA)
      as (_ & _ & Hmissing & _).
    apply (Hmissing "gone"); vm_compute; reflexivity.
Defined.

Example getBuckets_serverA :
  fst (getBuckets (sampleSdk sampleListing) cookieA serverA)
  = {| status := 200;
       body := BucketList [ {| name := Some "my-bucket"; bucket_region := "us-east-1";
                               creationDate := Some 1600000000000 |} ];
       cookieCleared := false |}.
Proof. vm_compute. reflexivity. Qed.

Example disconnect_noCookie :
  disconnect noCookie serverA
  = ({| status := 200; body := Success; cookieCleared := false |}, serverA).
Proof. reflexivity. Qed.

(** * Further properties of the code *)

Import RoleSchema StorageRuns AwsRole Api ApiNotions Client MoreSamples.

(** ** The schemas *)

Section Schemas.

(** X1: The schema accepts an object exactly when its three required keys hold
    non-empty strings and its session token is absent or a string, and the
    record it gives holds those values: a key of another kind (a number,
    [null]) is refused like a missing one. *)
Theorem awsCredentials_accepted_iff (fields : gmap string json) (c : AwsCredentials) :
  parse awsCredentialsSchema (Some (JObject fields)) = Parsed c
  <-> (fields !! "accessKeyId" = Some (JString (accessKeyId c))
       /\ accessKeyId c <> EmptyString)
      /\ (fields !! "secretAccessKey" = Some (JString (secretAccessKey c))
          /\ secretAccessKey c <> EmptyString)
      /\ (fields !! "region" = Some (JString (region c)) /\ region c <> EmptyString)
      /\ fields !! "sessionToken" = JString <$> sessionToken c.
Proof. apply parse_Parsed_iff. Qed.

Lemma at_key_insert_ne {A} (s : schema A) (k k' : string) (v : json)
    (fields : gmap string json) :
  k <> k' -> at_key k' s (<[k := v]> fields) = at_key k' s fields.
Proof. intros Hne. unfold at_key. rewrite lookup_insert_ne by exact Hne. reflexivity. Qed.

(** X2: A key outside the shape has no effect on the outcome, whatever it
    holds. *)
Theorem awsCredentials_unknown_key (fields : gmap string json) (k : string) (v : json) :
  ~ In k credentialKeys ->
  parse awsCredentialsSchema (Some (JObject (<[k := v]> fields)))
  = parse awsCredentialsSchema (Some (JObject fields)).
Proof.
  intros Hk. unfold credentialKeys in Hk. simpl in Hk.
  unfold parse, awsCredentialsSchema.
  rewrite !at_key_insert_ne by (intros ->; tauto). reflexivity.
Qed.

(** A key is accepted, or gives one issue with the key as its path. *)
Lemma requiredString_outcome (k msg : string) (fields : gmap string json) :
  (exists s, at_key k (requiredString msg) fields = inr s)
  \/ (exists i, at_key k (requiredString msg) fields = inl [i] /\ path i = [k]).
Proof.
  unfold at_key, requiredString, z_min, z_string.
  destruct (fields !! k) as [[| | |s| |]|]; simpl; eauto.
  destruct s; simpl; eauto.
Qed.

Lemma optionalString_outcome (k : string) (fields : gmap string json) :
  (exists t, at_key k (z_optional z_string) fields = inr t)
  \/ (exists i, at_key k (z_optional z_string) fields = inl [i] /\ path i = [k]).
Proof.
  unfold at_key, z_optional, z_string.
  destruct (fields !! k) as [[| | |s| |]|]; simpl; eauto.
Qed.

Lemma requiredString_issues (k msg : string) (fields : gmap string json) :
  path <$> issues_of (at_key k (requiredString msg) fields) = []
  \/ path <$> issues_of (at_key k (requiredString msg) fields) = [[k]].
Proof.
  unfold at_key, requiredString, z_min, z_string.
  destruct (fields !! k) as [[| | |s| |]|]; simpl; auto.
  destruct s; simpl; auto.
Qed.

Lemma optionalString_issues (k : string) (fields : gmap string json) :
  path <$> issues_of (at_key k (z_optional z_string) fields) = []
  \/ path <$> issues_of (at_key k (z_optional z_string) fields) = [[k]].
Proof.
  unfold at_key, z_optional, z_string.
  destruct (fields !! k) as [[| | |s| |]|]; simpl; auto.
Qed.

Lemma keyIssues_paths (fields : gmap string json) :
  (path <$> keyIssues fields) `sublist_of` ((fun k => [k]) <$> credentialKeys).
Proof.
  unfold keyIssues. rewrite !fmap_app.
  change ((fun k => [k]) <$> credentialKeys)
    with ([["accessKeyId"]] ++ [["secretAccessKey"]] ++ [["region"]]
          ++ [["sessionToken"]])%list.
  apply sublist_app; [|apply sublist_app; [|apply sublist_app]].
  - destruct (requiredString_issues "accessKeyId" "Access Key ID is required" fields)
      as [-> | ->]; [apply sublist_nil_l|reflexivity].
  - destruct (requiredString_issues "secretAccessKey" "Secret Access Key is required"
                fields) as [-> | ->]; [apply sublist_nil_l|reflexivity].
  - destruct (requiredString_issues "region" "Region is required" fields)
      as [-> | ->]; [apply sublist_nil_l|reflexivity].
  - destruct (optionalString_issues "sessionToken" fields) as [-> | ->];
      [apply sublist_nil_l|reflexivity].
Qed.

(** X3: When an object is refused, the issues come in the order of the shape,
    at most one for each of its four keys, each with that key alone as its
    path; validation does not stop at the first failing key. *)
Theorem awsCredentials_issues (fields : gmap string json) (issues : list ZodIssue) :
  parse awsCredentialsSchema (Some (JObject fields)) = ThrowZodError issues ->
  issues <> []
  /\ (path <$> issues) `sublist_of` ((fun k => [k]) <$> credentialKeys)
  /\ (length issues <= 4)%nat
  /\ NoDup (path <$> issues)
  /\ (forall k, In k requiredKeys ->
        (forall s, fields !! k = Some (JString s) -> s = EmptyString) ->
        exists i, In i issues /\ path i = [k]).
Proof.
  intros Hparse.
  assert (issues = keyIssues fields /\ issues <> []) as [-> Hne].
  { revert Hparse. unfold keyIssues, parse, awsCredentialsSchema.
    fold (requiredString "Access Key ID is required").
    fold (requiredString "Secret Access Key is required").
    fold (requiredString "Region is required").
    destruct (requiredString_outcome "accessKeyId" "Access Key ID is required" fields)
      as [(a & ->)|(ia & -> & _)];
      destruct (requiredString_outcome "secretAccessKey"
                  "Secret Access Key is required" fields)
        as [(s & ->)|(is_ & -> & _)];
      destruct (requiredString_outcome "region" "Region is required" fields)
        as [(r & ->)|(ir & -> & _)];
      destruct (optionalString_outcome "sessionToken" fields)
        as [(t & ->)|(it & -> & _)];
      simpl; intros H; inversion H; subst; split; first [reflexivity|discriminate]. }
  pose proof (keyIssues_paths fields) as Hsub.
  split; [exact Hne|]. split; [exact Hsub|]. split; [|split].
  - apply sublist_length in Hsub. rewrite !length_fmap in Hsub. exact Hsub.
  - eapply sublist_NoDup; [|exact Hsub]. vm_compute.
    repeat (constructor; [rewrite ?list_elem_of_In; simpl; intuition discriminate|]).
    constructor.
  - intros k Hk Hbad.
    assert (forall msg, exists i,
               at_key k (requiredString msg) fields = inl [i] /\ path i = [k]) as Hissue.
    { intros msg. unfold at_key, requiredString, z_min, z_string.
      destruct (fields !! k) as [[| | |s| |]|] eqn:Hl; simpl;
        try (eexists; split; reflexivity).
      rewrite (Hbad s eq_refl). simpl. eexists; split; reflexivity. }
    unfold keyIssues. simpl in Hk.
    destruct Hk as [<-|[<-|[<-|[]]]].
    + destruct (Hissue "Access Key ID is required") as (i & -> & Hp).
      exists i. split; [simpl; tauto|exact Hp].
    + destruct (Hissue "Secret Access Key is required") as (i & -> & Hp).
      exists i. split; [rewrite !in_app_iff; simpl; tauto|exact Hp].
    + destruct (Hissue "Region is required") as (i & -> & Hp).
      exists i. split; [rewrite !in_app_iff; simpl; tauto|exact Hp].
Qed.

(** X4: A body that is no object ([undefined], [null], an array, a string...)
    is refused with a single issue whose path is empty: it names no key. *)
Theorem awsCredentials_not_object (data : option json) :
  (forall fields, data <> Some (JObject fields)) ->
  exists i, parse awsCredentialsSchema data = ThrowZodError [i]
            /\ path i = [] /\ code i = invalid_type.
Proof.
  intros Hdata. exists (type_issue "object" data).
  split; [|split; reflexivity].
  destruct data as [[| | | | |fields]|]; try reflexivity.
  exfalso. exact (Hdata fields eq_refl).
Qed.

(** X5: The role schema accepts an object exactly when [roleArn] and [region]
    hold non-empty strings and [sessionName] is absent or a string (the
    empty string included). *)
Theorem roleAssumption_accepted_iff (fields : gmap string json) (c : RoleAssumption) :
  parse roleAssumptionSchema (Some (JObject fields)) = Parsed c
  <-> (fields !! "roleArn" = Some (JString (roleArn c)) /\ roleArn c <> EmptyString)
      /\ (fields !! "region" = Some (JString (role_region c))
          /\ role_region c <> EmptyString)
      /\ fields !! "sessionName" = JString <$> sessionName c.
Proof.
  rewrite <- (requiredString_inr_iff "roleArn" "Role ARN is required"),
    <- (requiredString_inr_iff "region" "Region is required"),
    <- optionalString_inr_iff.
  unfold parse, roleAssumptionSchema.
  fold (requiredString "Role ARN is required").
  fold (requiredString "Region is required").
  destruct (at_key "roleArn" _ fields) as [ia|a];
    destruct (at_key "region" _ fields) as [ir|r];
    destruct (at_key "sessionName" _ fields) as [it|t]; simpl;
    (split; [intros H; inversion H; subst; simpl; repeat split
            |intros (Ha & Hr & Ht); try discriminate]).
  destruct c; simpl in *. congruence.
Qed.

End Schemas.

Lemma awsCredentials_unknown_key_witness :
  parse awsCredentialsSchema
    (Some (JObject (<["remember" := JBool true]> payloadNoRegion)))
  = parse awsCredentialsSchema (Some (JObject payloadNoRegion)).
Proof.
  apply awsCredentials_unknown_key. vm_compute. intuition discriminate.
Defined.

Example parse_payloadWrongKinds :
  parse awsCredentialsSchema (Some (JObject payloadWrongKinds))
  = ThrowZodError
      [ {| code := invalid_type; path := ["accessKeyId"];
           issue_message := "Expected string, received number" |};
        {| code := invalid_type; path := ["sessionToken"];
           issue_message := "Expected string, received boolean" |} ].
Proof. vm_compute. reflexivity. Qed.

Lemma awsCredentials_issues_witness :
  exists i, In i [ {| code := invalid_type; path := ["accessKeyId"];
                      issue_message := "Expected string, received number" |};
                   {| code := invalid_type; path := ["sessionToken"];
                      issue_message := "Expected string, received boolean" |} ]
            /\ path i = ["accessKeyId"].
Proof.
  destruct (awsCredentials_issues payloadWrongKinds _ parse_payloadWrongKinds)
    as (_ & _ & _ & _ & Hnamed).
  apply (Hnamed "accessKeyId").
  - simpl. tauto.
  - intros s Hs. vm_compute in Hs. discriminate Hs.
Defined.

Lemma awsCredentials_not_object_witness :
  exists i, parse awsCredentialsSchema (Some (JArray [JString "AKIAEXAMPLEA"]))
            = ThrowZodError [i]
            /\ path i = [] /\ code i = invalid_type.
Proof. apply awsCredentials_not_object. intros fields. discriminate. Defined.

(** ** The session store, over its runs *)

Section StoreRuns.

Variable toString36 : Js.Number -> string.

(** X6: In every store a process can reach, a session sits under its own id:
    the [id] member of what [getSession] returns is the id asked for. *)
Theorem reachable_id_is_key (st : MemStorage) (sessionId : string) (session : S3Session) :
  reachable toString36 st ->
  getSession sessionId st = Some session ->
  id session = sessionId.
Proof.
  intros Hreach. revert sessionId session.
  induction Hreach as [|rnd now creds st _ IH|deleted st _ IH];
    intros sessionId session; unfold getSession; simpl.
  - rewrite lookup_empty. discriminate.
  - rewrite lookup_insert. case_decide as Hk.
    + intros H; inversion H; subst. reflexivity.
    + apply IH.
  - rewrite lookup_delete. case_decide as Hk; [discriminate|apply IH].
Qed.

Lemma MemStorage_eq (st st' : MemStorage) : sessions st = sessions st' -> st = st'.
Proof. destruct st, st'; simpl; intros ->; reflexivity. Qed.

(** X7: Deleting the session just created leaves the store as it is after
    deleting that id from the store before the creation: the original store
    when the id was free, and the original store less the session that
    held the id otherwise. *)
Theorem deleteSession_createSession rnd now creds (st : MemStorage) :
  let created := createSession toString36 rnd now creds st in
  deleteSession (id (fst created)) (snd created)
  = deleteSession (newSessionId toString36 rnd) st
  /\ (getSession (newSessionId toString36 rnd) st = None ->
      deleteSession (id (fst created)) (snd created) = st).
Proof.
  simpl. split.
  - apply MemStorage_eq; simpl. apply delete_insert_eq.
  - intros Hfree. apply MemStorage_eq; simpl. apply delete_insert_id. exact Hfree.
Qed.

(** X8: Deleting an id that is not stored changes nothing, so a second delete
    of the same id is without effect; and a delete never adds a session. *)
Theorem deleteSession_absent (sessionId : string) (st : MemStorage) :
  (getSession sessionId st = None -> deleteSession sessionId st = st)
  /\ deleteSession sessionId (deleteSession sessionId st) = deleteSession sessionId st
  /\ sessions (deleteSession sessionId st) ⊆ sessions st.
Proof.
  split; [|split].
  - intros Hnone. apply MemStorage_eq; simpl. apply delete_id. exact Hnone.
  - apply MemStorage_eq; simpl. apply delete_delete_eq.
  - simpl. apply delete_subseteq.
Qed.

(** The number of sessions after a [createSession]: one more when the id
    was free, the same when it was taken. *)
Lemma createSession_size rnd now creds (st : MemStorage) :
  base.size (sessions (snd (createSession toString36 rnd now creds st)))
  = match getSession (newSessionId toString36 rnd) st with
    | None => S (base.size (sessions st))
    | Some _ => base.size (sessions st)
    end.
Proof.
  simpl. unfold getSession.
  destruct (sessions st !! newSessionId toString36 rnd) as [old|] eqn:Hold.
  - apply map_size_insert_Some. eexists; exact Hold.
  - apply map_size_insert_None. exact Hold.
Qed.

End StoreRuns.

Lemma reachable_id_is_key_witness :
  id {| id := "82mvyr"; credentials := credsA; createdAt := 1000 |} = "82mvyr".
Proof.
  apply (reachable_id_is_key sampleToString36 storeA).
  - apply reachable_create. apply reachable_empty.
  - vm_compute. reflexivity.
Defined.

Lemma deleteSession_createSession_witness :
  deleteSession "82mvyr" storeA = Storage.empty.
Proof.
  apply (proj2 (deleteSession_createSession sampleToString36 0 1000 credsA Storage.empty)).
  reflexivity.
Defined.

Lemma deleteSession_absent_witness : deleteSession "gone" storeA = storeA.
Proof.
  apply (proj1 (deleteSession_absent "gone" storeA)). vm_compute. reflexivity.
Defined.

(** ** The generated id *)

Section GeneratedId.

Lemma substring_whole (s : string) : substring 0 (String.length s) s = s.
Proof. induction s as [|ch s IH]; simpl; [reflexivity|rewrite IH; reflexivity]. Qed.

Lemma substring_from_split (n : nat) (s : string) :
  s = substring 0 n s +:+ substring_from n s.
Proof.
  unfold substring_from. revert s.
  induction n as [|n IH]; intros s.
  - rewrite Nat.sub_0_r, substring_whole. destruct s; reflexivity.
  - destruct s as [|ch s]; [reflexivity|].
    change (String ch s = String ch (substring 0 n s +:+ substring n (String.length s - n) s)).
    f_equal. apply IH.
Qed.

Lemma length_substring_from (n : nat) (s : string) :
  String.length (substring_from n s) = (String.length s - n)%nat.
Proof.
  unfold substring_from. revert s.
  induction n as [|n IH]; intros s.
  - rewrite Nat.sub_0_r, substring_whole. reflexivity.
  - destruct s as [|ch s]; [reflexivity|]. simpl. apply IH.
Qed.

(** X9: The id is the rendering of the draw less its first seven characters:
    seven characters shorter, and empty for a rendering of seven characters
    or fewer. *)
Theorem newSessionId_suffix (toString36 : Js.Number -> string) (rnd : Js.Number) :
  toString36 rnd = substring 0 7 (toString36 rnd) +:+ newSessionId toString36 rnd
  /\ String.length (newSessionId toString36 rnd)
     = (String.length (toString36 rnd) - 7)%nat
  /\ ((String.length (toString36 rnd) <= 7)%nat ->
      newSessionId toString36 rnd = EmptyString).
Proof.
  unfold newSessionId. split; [apply substring_from_split|].
  split; [apply length_substring_from|].
  intros Hshort. pose proof (length_substring_from 7 (toString36 rnd)) as Hlen.
  destruct (substring_from 7 (toString36 rnd)); [reflexivity|].
  simpl in Hlen. lia.
Qed.

End GeneratedId.

Lemma newSessionId_suffix_witness : newSessionId (fun _ => "0.i") 0 = EmptyString.
Proof.
  apply (proj2 (proj2 (newSessionId_suffix (fun _ => "0.i") 0))).
  vm_compute. lia.
Defined.

(** ** The gateway: what the listings keep *)

Section Listings.

Context {World : Type} (sdk : Sdk World).

(** X10: With a bound client and a response of the provider, [listBuckets]
    gives one descriptor for each bucket of the response, in the same
    order, with the bucket's name and creation date; the region of every
    descriptor is us-east-1, whatever the bucket; a response without
    [Buckets] gives the empty list. *)
Theorem listBuckets_descriptors svc c w response w' :
  s3Client svc = Some c ->
  sendListBuckets sdk c w = (Return response, w') ->
  exists descriptors,
    listBuckets sdk svc w = (Return descriptors, svc, w')
    /\ length descriptors = length (default [] (Buckets response))
    /\ (forall (i : nat) b, default [] (Buckets response) !! i = Some b ->
          descriptors !! i = Some {| name := Name b; bucket_region := "us-east-1";
                                     creationDate := CreationDate b |})
    /\ Forall (fun d => bucket_region d = "us-east-1") descriptors
    /\ (Buckets response = None -> descriptors = []).
Proof.
  intros Hc Hsend. exists (map toS3Bucket (default [] (Buckets response))).
  split; [|split; [|split; [|split]]].
  - unfold listBuckets. rewrite Hc, Hsend. reflexivity.
  - apply length_map.
  - intros i b Hb. change (map toS3Bucket) with (fmap (M := list) toS3Bucket).
    rewrite list_lookup_fmap, Hb. reflexivity.
  - apply Forall_forall. intros d Hd. apply list_elem_of_In, in_map_iff in Hd.
    destruct Hd as (b & <- & _). reflexivity.
  - intros ->. reflexivity.
Qed.

Lemma filter_split {A} (f : A -> bool) (l : list A) :
  (length (List.filter f l) + length (List.filter (fun x => negb (f x)) l))%nat
  = length l.
Proof.
  induction l as [|x l IH]; simpl; [reflexivity|].
  destruct (f x); simpl; lia.
Qed.

(** X11: With a bound client and a response of the provider, every object of
    [Contents] whose key is not the queried prefix (an object without a key
    included) has its file entry in the result, with its size, date, etag
    and storage class; the only objects left out are those whose key is the
    queried prefix, so the result has as many entries as the response has
    common prefixes and objects, less those. *)
Theorem listObjects_keeps_contents bucketName prefix delimiter svc c w response w' :
  s3Client svc = Some c ->
  sendListObjectsV2 sdk c (listRequest bucketName prefix delimiter) w
  = (Return response, w') ->
  exists objs,
    listObjects sdk bucketName prefix delimiter svc w = (Return objs, svc, w')
    /\ (forall ob, In ob (default [] (Contents response)) ->
          Key ob <> Some (default EmptyString prefix) ->
          In {| key := Key ob; size := Size ob; lastModified := LastModified ob;
                etag := ETag ob; storageClass := StorageClass ob; isFolder := false |}
             objs)
    /\ (length objs
        + length (List.filter
                    (fun ob => negb (keyIsNot (default EmptyString prefix) ob))
                    (default [] (Contents response))))%nat
       = (length (default [] (CommonPrefixes response))
          + length (default [] (Contents response)))%nat.
Proof.
  intros Hc Hsend. eexists. split; [|split].
  - rewrite (listObjects_bound _ _ _ _ _ c) by exact Hc. rewrite Hsend. reflexivity.
  - intros ob Hin Hk. apply in_collectObjects. right.
    exists ob. repeat split; assumption.
  - unfold collectObjects. rewrite length_app, !length_map.
    rewrite <- Nat.add_assoc, filter_split. reflexivity.
Qed.

End Listings.

Lemma listBuckets_descriptors_witness :
  exists descriptors,
    listBuckets (sampleSdk sampleListing) bound tt = (Return descriptors, bound, tt)
    /\ Forall (fun d => bucket_region d = "us-east-1") descriptors.
Proof.
  destruct (listBuckets_descriptors (sampleSdk sampleListing) bound sampleClient tt
              _ tt eq_refl eq_refl) as (ds & Hret & _ & _ & Hregion & _).
  exists ds. split; [exact Hret|exact Hregion].
Defined.

Lemma listObjects_keeps_contents_witness :
  exists objs,
    listObjects (sampleSdk sampleListing) "my-bucket" (Some "photos/") None bound tt
    = (Return objs, bound, tt)
    /\ In {| key := Some "photos/a.jpg"; size := Some 2048;
             lastModified := Some 1700000001000; etag := Some "9e107";
             storageClass := Some "STANDARD"; isFolder := false |} objs
    /\ length objs = 2%nat.
Proof.
  destruct (listObjects_keeps_contents (sampleSdk sampleListing)
              "my-bucket" (Some "photos/") None bound sampleClient tt sampleListing tt
              eq_refl eq_refl) as (objs & Hret & Hkeeps & Hcount).
  exists objs. split; [exact Hret|]. split.
  - apply (Hkeeps {| Key := Some "photos/a.jpg"; Size := Some 2048;
                     LastModified := Some 1700000001000;
                     ETag := Some "9e107"; StorageClass := Some "STANDARD" |}).
    + simpl. tauto.
    + discriminate.
  - simpl in Hcount. lia.
Defined.

(** ** The gateway: role assumption *)

Section RoleAssumption.

Context {World : Type} (sdk : Sdk World) (sts : Sts World).

Lemma initializeWithRole_cases roleConfig svc w r svc' w' :
  initializeWithRole sdk sts roleConfig svc w = (r, svc', w') ->
  match r with
  | Throw _ => svc' = svc
  | Return creds =>
      region creds = role_region roleConfig
      /\ (exists stsClient issued w0,
            sendAssumeRole sts stsClient
              {| RoleArn := roleArn roleConfig;
                 RoleSessionName := roleSessionName roleConfig |} w
            = (Return {| Credentials := Some issued |}, w0)
            /\ accessKeyId creds = AccessKeyId issued
            /\ secretAccessKey creds = SecretAccessKey issued
            /\ sessionToken creds = SessionToken issued)
      /\ exists c, newS3Client sdk (configOf creds) = Return c
                   /\ svc' = {| s3Client := Some c |}
  end.
Proof.
  unfold initializeWithRole, initializeWithCredentials.
  destruct (newSTSClient sts (role_region roleConfig)) as [stsClient|e];
    [|intros H; inversion H; reflexivity].
  destruct (sendAssumeRole sts stsClient _ w) as [[[[issued|]]|e] w0] eqn:Hsend;
    simpl; try (intros H; inversion H; reflexivity).
  match goal with
  | |- context [newS3Client sdk ?cfg] => destruct (newS3Client sdk cfg) as [c|e] eqn:Hnew
  end; intros H; inversion H; subst; [|reflexivity].
  split; [reflexivity|]. split.
  - eexists stsClient, issued, _. split; [exact Hsend|]. repeat split.
  - exists c. split; [exact Hnew|reflexivity].
Qed.

(** X12: [initializeWithRole] either throws and leaves the bound client as it
    was, or returns the credentials the token service gave, under the
    region of the request, with the client the constructor built from
    them bound. *)
Theorem initializeWithRole_outcome roleConfig svc w r svc' w' :
  initializeWithRole sdk sts roleConfig svc w = (r, svc', w') ->
  match r with
  | Throw _ => svc' = svc
  | Return creds =>
      region creds = role_region roleConfig
      /\ (exists stsClient issued w0,
            sendAssumeRole sts stsClient
              {| RoleArn := roleArn roleConfig;
                 RoleSessionName := roleSessionName roleConfig |} w
            = (Return {| Credentials := Some issued |}, w0)
            /\ accessKeyId creds = AccessKeyId issued
            /\ secretAccessKey creds = SecretAccessKey issued
            /\ sessionToken creds = SessionToken issued)
      /\ exists c, newS3Client sdk (configOf creds) = Return c
                   /\ svc' = {| s3Client := Some c |}
  end.
Proof. apply initializeWithRole_cases. Qed.

(** A session name that is absent or empty is sent as [S3ClientSession]:
    the three requests cannot be told apart. *)
Lemma initializeWithRole_default_name arn reg svc w :
  initializeWithRole sdk sts
    {| roleArn := arn; role_region := reg; sessionName := None |} svc w
  = initializeWithRole sdk sts
      {| roleArn := arn; role_region := reg; sessionName := Some "S3ClientSession" |}
      svc w
  /\ initializeWithRole sdk sts
       {| roleArn := arn; role_region := reg; sessionName := Some EmptyString |} svc w
     = initializeWithRole sdk sts
         {| roleArn := arn; role_region := reg; sessionName := Some "S3ClientSession" |}
         svc w.
Proof. split; reflexivity. Qed.

(** X13: A response of the token service without credentials makes
    [initializeWithRole] throw its own error; no storage client is built and
    the bound client stays. *)
Theorem initializeWithRole_no_credentials roleConfig svc w stsClient w' :
  newSTSClient sts (role_region roleConfig) = Return stsClient ->
  sendAssumeRole sts stsClient
    {| RoleArn := roleArn roleConfig; RoleSessionName := roleSessionName roleConfig |} w
  = (Return {| Credentials := None |}, w') ->
  initializeWithRole sdk sts roleConfig svc w = (Throw no_credentials, svc, w').
Proof.
  intros Hnew Hsend. unfold initializeWithRole. rewrite Hnew, Hsend. reflexivity.
Qed.

End RoleAssumption.

Example initializeWithRole_roleA :
  initializeWithRole (sampleSdk sampleListing) sampleSts roleA unbound tt
  = (Return {| accessKeyId := "ASIATEMPORARY"; secretAccessKey := "temporarySecret";
               region := "eu-west-1";
               sessionToken := Some "token-for-S3ClientSession" |},
     {| s3Client :=
          Some {| config := {| cfg_accessKeyId := "ASIATEMPORARY";
                               cfg_secretAccessKey := "temporarySecret";
                               cfg_sessionToken := Some "token-for-S3ClientSession";
                               cfg_region := "eu-west-1" |} |} |},
     tt).
Proof. vm_compute. reflexivity. Qed.

Lemma initializeWithRole_outcome_witness :
  region {| accessKeyId := "ASIATEMPORARY"; secretAccessKey := "temporarySecret";
            region := "eu-west-1";
            sessionToken := Some "token-for-S3ClientSession" |}
  = role_region roleA.
Proof.
  exact (proj1 (initializeWithRole_outcome (sampleSdk sampleListing) sampleSts roleA
                  unbound tt _ _ _ initializeWithRole_roleA)).
Defined.

Lemma initializeWithRole_no_credentials_witness :
  initializeWithRole (sampleSdk sampleListing) emptySts roleA bound tt
  = (Throw no_credentials, bound, tt).
Proof.
  apply (initializeWithRole_no_credentials (sampleSdk sampleListing) emptySts roleA
           bound tt {| sts_region := "eu-west-1" |} tt); reflexivity.
Defined.

(** ** The object routes: the session check *)

(** Unfolds the handlers down to the calls of the SDK. *)
Ltac unfold_handlers :=
  unfold getObjects, getDownload, deleteKey, upload, getBuckets, connectionStatus,
    sessionOf, respond, andThen, evaluate, rebound, reply, status_json, json_,
    listBuckets, listObjects, getDownloadUrl, deleteObject, uploadObject,
    initializeWithCredentials, withService in *.

Section SessionCheck.

Context {World : Type} (sdk : Sdk World).
Variable decodeURIComponent : string -> completion string.

Lemma sessionOf_noSession (req : Request) (srv : Server World) :
  noSession req srv ->
  exists r, sessionOf req srv = inl r /\ api_status r = 401.
Proof.
  intros Hno. unfold sessionOf.
  destruct (req_sessionId req) as [sid|] eqn:Hreq; [|eexists; split; reflexivity].
  destruct (truthy sid) eqn:Htruthy; simpl; [|eexists; split; reflexivity].
  rewrite (Hno sid Hreq Htruthy). eexists; split; reflexivity.
Qed.

Lemma sessionOf_hasSession (req : Request) (srv : Server World) session :
  hasSession req srv session -> sessionOf req srv = inr session.
Proof.
  intros (sid & Hreq & Htruthy & Hget). unfold sessionOf.
  rewrite Hreq, Htruthy, Hget. reflexivity.
Qed.

(** X14: A request whose cookie resolves to no session is answered 401 by each
    of the five object routes, and the server stays as it was: no client is
    built or bound and the provider is not called. *)
Theorem routes_require_session (req : Request) (srv : Server World) :
  noSession req srv ->
  (status (fst (getBuckets sdk req srv)) = 401 /\ snd (getBuckets sdk req srv) = srv)
  /\ (forall bucketName prefix,
        api_status (fst (getObjects sdk req bucketName prefix srv)) = 401
        /\ snd (getObjects sdk req bucketName prefix srv) = srv)
  /\ (forall bucketName key,
        api_status (fst (getDownload sdk decodeURIComponent req bucketName key srv)) = 401
        /\ snd (getDownload sdk decodeURIComponent req bucketName key srv) = srv)
  /\ (forall bucketName key,
        api_status (fst (deleteKey sdk decodeURIComponent req bucketName key srv)) = 401
        /\ snd (deleteKey sdk decodeURIComponent req bucketName key srv) = srv)
  /\ (forall bucketName file key,
        api_status (fst (upload sdk req bucketName file key srv)) = 401
        /\ snd (upload sdk req bucketName file key srv) = srv).
Proof.
  intros Hno.
  destruct (sessionOf_noSession req srv Hno) as (r & Hr & Hstatus).
  split; [|split; [|split; [|split]]].
  - unfold getBuckets.
    destruct (req_sessionId req) as [sid|] eqn:Hreq; [|split; reflexivity].
    destruct (truthy sid) eqn:Htruthy; simpl; [|split; reflexivity].
    rewrite (Hno sid Hreq Htruthy). split; reflexivity.
  - intros. unfold getObjects. rewrite Hr. split; [exact Hstatus|reflexivity].
  - intros. unfold getDownload. rewrite Hr. split; [exact Hstatus|reflexivity].
  - intros. unfold deleteKey. rewrite Hr. split; [exact Hstatus|reflexivity].
  - intros. unfold upload. rewrite Hr. split; [exact Hstatus|reflexivity].
Qed.

(** X15: With a session, an upload without a file is answered 400 "No file
    provided", and one with a file but without a key, or with the empty
    key, 400 "No key provided"; in both cases the server stays as it was. *)
Theorem upload_requires_file_and_key (req : Request) (srv : Server World)
    session bucketName file key :
  hasSession req srv session ->
  (file = None ->
   upload sdk req bucketName file key srv
   = (reply 400 (Failed (Message "No file provided")), srv))
  /\ (file <> None -> key = None \/ key = Some EmptyString ->
      upload sdk req bucketName file key srv
      = (reply 400 (Failed (Message "No key provided")), srv)).
Proof.
  intros Hhas. apply sessionOf_hasSession in Hhas.
  unfold upload. rewrite Hhas. split.
  - intros ->. reflexivity.
  - intros Hfile [-> | ->]; destruct file; try congruence; reflexivity.
Qed.

(** X16: What a route answers, and the world it leaves, do not depend on the
    client that was bound when the request arrived: each route works with
    the client it builds from the credentials of the request's session. *)
Theorem routes_ignore_bound_client (req : Request) (srv : Server World)
    (other : AwsService) :
  (fst (getBuckets sdk req (withService srv other)) = fst (getBuckets sdk req srv)
   /\ world (snd (getBuckets sdk req (withService srv other)))
      = world (snd (getBuckets sdk req srv)))
  /\ (forall bucketName prefix,
        fst (getObjects sdk req bucketName prefix (withService srv other))
        = fst (getObjects sdk req bucketName prefix srv)
        /\ world (snd (getObjects sdk req bucketName prefix (withService srv other)))
           = world (snd (getObjects sdk req bucketName prefix srv)))
  /\ (forall bucketName key,
        fst (getDownload sdk decodeURIComponent req bucketName key (withService srv other))
        = fst (getDownload sdk decodeURIComponent req bucketName key srv)
        /\ world (snd (getDownload sdk decodeURIComponent req bucketName key
                         (withService srv other)))
           = world (snd (getDownload sdk decodeURIComponent req bucketName key srv)))
  /\ (forall bucketName key,
        fst (deleteKey sdk decodeURIComponent req bucketName key (withService srv other))
        = fst (deleteKey sdk decodeURIComponent req bucketName key srv)
        /\ world (snd (deleteKey sdk decodeURIComponent req bucketName key
                         (withService srv other)))
           = world (snd (deleteKey sdk decodeURIComponent req bucketName key srv)))
  /\ (forall bucketName file key,
        fst (upload sdk req bucketName file key (withService srv other))
        = fst (upload sdk req bucketName file key srv)
        /\ world (snd (upload sdk req bucketName file key (withService srv other)))
           = world (snd (upload sdk req bucketName file key srv)))
  /\ (fst (connectionStatus sdk req (withService srv other))
      = fst (connectionStatus sdk req srv)
      /\ world (snd (connectionStatus sdk req (withService srv other)))
         = world (snd (connectionStatus sdk req srv))).
Proof.
  repeat split; intros; unfold_handlers; simpl;
    repeat match goal with
           | |- context [match ?x with _ => _ end] =>
               lazymatch x with
               | context [match _ with _ => _ end] => fail
               | _ => destruct x eqn:?
               end
           end; simpl; reflexivity.
Qed.

End SessionCheck.

(** ** The connect routes *)

Section Connect.

Context {World : Type} (sdk : Sdk World) (sts : Sts World).
Variable toString36 : Js.Number -> string.

Lemma Server_eta (srv : Server World) :
  {| storage := storage srv; awsService := awsService srv; world := world srv |} = srv.
Proof. destruct srv; reflexivity. Qed.

(** X17: [POST /api/connect/credentials] answers 200 or 400.  On 200 the body
    and the cookie carry the generated id, the store holds under it a
    session with the parsed credentials and the clock reading, and the
    client built from those credentials is bound.  On 400 nothing has
    changed: no session is stored, no client bound, no cookie written. *)
Theorem connectCredentials_outcome rnd now body (srv : Server World) :
  let res := fst (connectCredentials sdk toString36 rnd now body srv) in
  let srv' := snd (connectCredentials sdk toString36 rnd now body srv) in
  let sessionId := newSessionId toString36 rnd in
  (api_status res = 200
   /\ api_body res = Connected sessionId
   /\ api_cookie res = Some sessionId
   /\ exists creds c,
       parse awsCredentialsSchema body = Parsed creds
       /\ newS3Client sdk (configOf creds) = Return c
       /\ getSession sessionId (storage srv')
          = Some {| id := sessionId; credentials := creds; createdAt := now |}
       /\ awsService srv' = {| s3Client := Some c |}
       /\ world srv' = world srv)
  \/ (api_status res = 400 /\ api_cookie res = None /\ srv' = srv
      /\ exists e, api_body res = Failed e).
Proof.
  unfold connectCredentials, initializeWithCredentials.
  destruct (parse awsCredentialsSchema body) as [creds|issues] eqn:Hparse; simpl.
  2: { right. repeat split. eexists; reflexivity. }
  fold (configOf creds).
  destruct (newS3Client sdk (configOf creds)) as [c|e] eqn:Hnew; simpl.
  - left. repeat split. exists creds, c. repeat split; try assumption.
    unfold getSession; simpl. apply lookup_insert_eq.
  - right. unfold rebound. rewrite Server_eta. repeat split. eexists; reflexivity.
Qed.

(** X18: After a connect that succeeded with a non-empty id, a request with
    that id in its cookie is connected, with the region just given, and is
    let through by [GET /api/buckets], whatever session the store held
    under that id before. *)
Theorem connect_then_status rnd now body (srv : Server World) creds c :
  parse awsCredentialsSchema body = Parsed creds ->
  newS3Client sdk (configOf creds) = Return c ->
  truthy (newSessionId toString36 rnd) = true ->
  let srv' := snd (connectCredentials sdk toString36 rnd now body srv) in
  let req := withCookie (newSessionId toString36 rnd) in
  fst (connectionStatus sdk req srv')
  = json_ (ConnectionStatus true (Some (region creds)))
  /\ status (fst (getBuckets sdk req srv')) <> 401.
Proof.
  intros Hparse Hnew Htruthy. simpl.
  unfold connectCredentials, initializeWithCredentials. rewrite Hparse.
  fold (configOf creds). rewrite Hnew. simpl.
  unfold connectionStatus, getBuckets, withCookie, initializeWithCredentials; simpl.
  rewrite Htruthy; simpl.
  unfold getSession; simpl. rewrite lookup_insert_eq. simpl.
  fold (configOf creds). rewrite Hnew. simpl. split; [reflexivity|].
  unfold listBuckets; simpl.
  destruct (sendListBuckets sdk c (world srv)) as [[r|e] w]; simpl; discriminate.
Qed.

(** X19: After a connect whose draw renders in seven characters or fewer, the
    session is in the store under the empty id, and no route reaches it:
    with the cookie the connect has set, the status is not connected,
    [GET /api/buckets] answers 401, and a disconnect neither removes the
    session nor clears the cookie. *)
Theorem connect_with_empty_id rnd now body (srv : Server World) creds c :
  parse awsCredentialsSchema body = Parsed creds ->
  newS3Client sdk (configOf creds) = Return c ->
  (String.length (toString36 rnd) <= 7)%nat ->
  let res := fst (connectCredentials sdk toString36 rnd now body srv) in
  let srv' := snd (connectCredentials sdk toString36 rnd now body srv) in
  api_status res = 200
  /\ api_cookie res = Some EmptyString
  /\ getSession EmptyString (storage srv')
     = Some {| id := EmptyString; credentials := creds; createdAt := now |}
  /\ fst (connectionStatus sdk (withCookie EmptyString) srv') = json_ notConnected
  /\ status (fst (getBuckets sdk (withCookie EmptyString) srv')) = 401
  /\ disconnect (withCookie EmptyString) srv' = (json_ Success, srv').
Proof.
  intros Hparse Hnew Hshort.
  assert (newSessionId toString36 rnd = EmptyString) as Hid.
  { unfold newSessionId.
    pose proof (length_substring_from 7 (toString36 rnd)) as Hlen.
    destruct (substring_from 7 (toString36 rnd)); [reflexivity|]. simpl in Hlen. lia. }
  simpl. unfold connectCredentials, initializeWithCredentials, createSession.
  rewrite Hparse. fold (configOf creds). rewrite Hnew, Hid. simpl.
  repeat split. unfold getSession; simpl. apply lookup_insert_eq.
Qed.

(** C8, as the code has it: a disconnect answers 200 and the old cookie
    is refused with 401 right after it; but once a later connect has drawn
    the id of that cookie, [GET /api/buckets] with the old cookie is let
    through again, with the credentials of that connect: it answers with
    their bucket list when the provider returns one, and never 401. *)
Theorem old_cookie_after_reconnect rnd now body (srv : Server World) creds c :
  parse awsCredentialsSchema body = Parsed creds ->
  newS3Client sdk (configOf creds) = Return c ->
  truthy (newSessionId toString36 rnd) = true ->
  let req := withCookie (newSessionId toString36 rnd) in
  let disconnected := snd (disconnect req srv) in
  let reconnected :=
    snd (connectCredentials sdk toString36 rnd now body disconnected) in
  status (fst (disconnect req srv)) = 200
  /\ status (fst (getBuckets sdk req disconnected)) = 401
  /\ status (fst (getBuckets sdk req reconnected)) <> 401
  /\ (forall response w',
        sendListBuckets sdk c (world srv) = (Return response, w') ->
        fst (getBuckets sdk req reconnected)
        = json_ (BucketList (map toS3Bucket (default [] (Buckets response))))).
Proof.
  intros Hparse Hnew Htruthy. simpl.
  unfold disconnect, withCookie; simpl. rewrite Htruthy. simpl.
  split; [reflexivity|]. split.
  - unfold getBuckets; simpl. rewrite Htruthy. simpl.
    unfold getSession, deleteSession; simpl. rewrite lookup_delete_eq. reflexivity.
  - unfold connectCredentials, initializeWithCredentials. rewrite Hparse.
    fold (configOf creds). simpl. rewrite Hnew. simpl.
    unfold getBuckets, initializeWithCredentials; simpl. rewrite Htruthy; simpl.
    unfold getSession; simpl. rewrite lookup_insert_eq. simpl.
    fold (configOf creds). rewrite Hnew. simpl. unfold listBuckets; simpl.
    split.
    + destruct (sendListBuckets sdk c (world srv)) as [[r|e] w]; simpl; discriminate.
    + intros response w' ->. reflexivity.
Qed.

(** X20: [POST /api/connect/role] answers 200 or 400.  On 200 the session stored
    under the generated id holds the temporary credentials of the token
    service with the region of the request.  On 400 the store and the bound
    client are as before and no cookie is written. *)
Theorem connectRole_outcome rnd now body (srv : Server World) :
  let res := fst (connectRole sdk sts toString36 rnd now body srv) in
  let srv' := snd (connectRole sdk sts toString36 rnd now body srv) in
  let sessionId := newSessionId toString36 rnd in
  (api_status res = 200
   /\ api_body res = Connected sessionId
   /\ api_cookie res = Some sessionId
   /\ exists roleConfig creds,
       parse roleAssumptionSchema body = Parsed roleConfig
       /\ region creds = role_region roleConfig
       /\ getSession sessionId (storage srv')
          = Some {| id := sessionId; credentials := creds; createdAt := now |})
  \/ (api_status res = 400 /\ api_cookie res = None
      /\ storage srv' = storage srv /\ awsService srv' = awsService srv).
Proof.
  unfold connectRole.
  destruct (parse roleAssumptionSchema body) as [roleConfig|issues] eqn:Hparse; simpl.
  2: { right. repeat split. }
  destruct (initializeWithRole sdk sts roleConfig (awsService srv) (world srv))
    as [[[creds|e] svc] w] eqn:Hrole; simpl.
  - left. repeat split. exists roleConfig, creds.
    apply initializeWithRole_cases in Hrole as (Hregion & _ & _).
    repeat split; [exact Hregion|]. unfold getSession; simpl. apply lookup_insert_eq.
  - right. apply initializeWithRole_cases in Hrole. simpl in Hrole. subst svc.
    repeat split.
Qed.

End Connect.

(** ** The object routes: what they answer and what they leave *)

Section ObjectRoutes.

Context {World : Type} (sdk : Sdk World).
Variable decodeURIComponent : string -> completion string.

(** Case analysis on every call a handler makes. *)
Ltac handler_cases :=
  intros; unfold_handlers; simpl;
  repeat match goal with
         | |- context [match ?x with _ => _ end] =>
             lazymatch x with
             | context [match _ with _ => _ end] => fail
             | _ => destruct x eqn:?
             end
         end; simpl.

(** X21: The session store is changed by the connect and disconnect routes
    only: the five object routes and the status route leave it as it is,
    whatever they answer. *)
Theorem routes_keep_store (req : Request) (srv : Server World) :
  storage (snd (getBuckets sdk req srv)) = storage srv
  /\ storage (snd (connectionStatus sdk req srv)) = storage srv
  /\ (forall bucketName prefix,
        storage (snd (getObjects sdk req bucketName prefix srv)) = storage srv)
  /\ (forall bucketName key,
        storage (snd (getDownload sdk decodeURIComponent req bucketName key srv))
        = storage srv)
  /\ (forall bucketName key,
        storage (snd (deleteKey sdk decodeURIComponent req bucketName key srv))
        = storage srv)
  /\ (forall bucketName file key,
        storage (snd (upload sdk req bucketName file key srv)) = storage srv).
Proof. repeat split; handler_cases; reflexivity. Qed.

(** X22: The status codes of the routes: 200, 401 or 500 for the listings, the
    download and the deletion; 400 as well for the upload; 200 alone for
    the disconnect, which never answers 500. *)
Theorem routes_status_codes (req : Request) (srv : Server World) :
  In (status (fst (getBuckets sdk req srv))) [200; 401; 500]
  /\ status (fst (disconnect req srv)) = 200
  /\ (forall bucketName prefix,
        In (api_status (fst (getObjects sdk req bucketName prefix srv))) [200; 401; 500])
  /\ (forall bucketName key,
        In (api_status (fst (getDownload sdk decodeURIComponent req bucketName key srv)))
           [200; 401; 500])
  /\ (forall bucketName key,
        In (api_status (fst (deleteKey sdk decodeURIComponent req bucketName key srv)))
           [200; 401; 500])
  /\ (forall bucketName file key,
        In (api_status (fst (upload sdk req bucketName file key srv)))
           [200; 400; 401; 500]).
Proof.
  repeat split; try (unfold disconnect); handler_cases; simpl; tauto.
Qed.

(** X23: With a session whose client the constructor builds, the listing of
    objects asks the provider for the prefix of the query, the empty
    prefix when the query has none, with the delimiter [/]: a response is
    answered 200 with the entries [listObjects] makes of it, a rejection
    500 with the provider's message. *)
Theorem getObjects_outcome (req : Request) (srv : Server World) session
    bucketName prefix c :
  hasSession req srv session ->
  newS3Client sdk (configOf (credentials session)) = Return c ->
  let request := {| lo_Bucket := bucketName; lo_Prefix := default EmptyString prefix;
                    lo_Delimiter := "/" |} in
  (forall response w',
      sendListObjectsV2 sdk c request (world srv) = (Return response, w') ->
      getObjects sdk req bucketName prefix srv
      = (reply 200 (ObjectList (collectObjects (default EmptyString prefix) response)),
         {| storage := storage srv; awsService := {| s3Client := Some c |};
            world := w' |}))
  /\ (forall e w',
      sendListObjectsV2 sdk c request (world srv) = (Throw e, w') ->
      getObjects sdk req bucketName prefix srv
      = (reply 500 (Failed (Message (message e))),
         {| storage := storage srv; awsService := {| s3Client := Some c |};
            world := w' |})).
Proof.
  intros Hhas Hnew request. apply sessionOf_hasSession in Hhas.
  unfold getObjects, respond, andThen, initializeWithCredentials, listObjects, rebound.
  rewrite Hhas. fold (configOf (credentials session)). rewrite Hnew. simpl.
  split; intros x w' Hsend; fold request; rewrite Hsend; reflexivity.
Qed.

End ObjectRoutes.

(** ** The routes on concrete cases *)

Lemma noSession_gone : noSession (withCookie "gone") serverA.
Proof.
  intros sid Hsid _. inversion Hsid; subst. vm_compute. reflexivity.
Qed.

Lemma hasSession_cookieA : hasSession cookieA serverB sessionA.
Proof. exists "82mvyr". repeat split. Qed.

Lemma routes_require_session_witness :
  getObjects (sampleSdk sampleListing) (withCookie "gone") "my-bucket" None serverA
  = (reply 401 (Failed (Message "Invalid session")), serverA)
  /\ api_status (fst (upload (sampleSdk sampleListing) (withCookie "gone")
                        "my-bucket" None None serverA)) = 401.
Proof.
  destruct (routes_require_session (sampleSdk sampleListing) sampleDecode
              (withCookie "gone") serverA noSession_gone)
    as (_ & Hobjects & _ & _ & Hupload).
  split.
  - destruct (Hobjects "my-bucket" None) as [_ Hsrv].
    rewrite <- Hsrv at 2. vm_compute. reflexivity.
  - exact (proj1 (Hupload "my-bucket" None None)).
Defined.

Lemma upload_requires_file_and_key_witness :
  upload (sampleSdk sampleListing) cookieA "my-bucket" None (Some "a.txt") serverB
  = (reply 400 (Failed (Message "No file provided")), serverB)
  /\ upload (sampleSdk sampleListing) cookieA "my-bucket" (Some "hello")
       (Some EmptyString) serverB
     = (reply 400 (Failed (Message "No key provided")), serverB).
Proof.
  split.
  - apply (proj1 (upload_requires_file_and_key (sampleSdk sampleListing) cookieA serverB
                    sessionA "my-bucket" None (Some "a.txt") hasSession_cookieA)).
    reflexivity.
  - apply (proj2 (upload_requires_file_and_key (sampleSdk sampleListing) cookieA serverB
                    sessionA "my-bucket" (Some "hello") (Some EmptyString)
                    hasSession_cookieA)).
    + discriminate.
    + right. reflexivity.
Defined.

Example upload_serverB :
  upload (sampleSdk sampleListing) cookieA "my-bucket" (Some "hello") (Some "a.txt")
    serverB
  = (reply 200 Succeeded, serverB).
Proof. vm_compute. reflexivity. Qed.

(** A second connect whose draw gives the id of the first: the cookie of
    the first user now stands for the credentials of the second. *)
Lemma connect_then_status_witness :
  fst (connectionStatus (sampleSdk sampleListing) (withCookie "82mvyr")
         (snd (connectCredentials (sampleSdk sampleListing) sampleToString36 0 2000
                 (Some (JObject payloadB)) serverA)))
  = json_ (ConnectionStatus true (Some "us-east-1"))
  /\ fst (connectionStatus (sampleSdk sampleListing) (withCookie "82mvyr") serverA)
     = json_ (ConnectionStatus true (Some "eu-west-1")).
Proof.
  split.
  - apply (connect_then_status (sampleSdk sampleListing) sampleToString36 0 2000
             (Some (JObject payloadB)) serverA credsB clientB);
      vm_compute; reflexivity.
  - vm_compute. reflexivity.
Defined.

Lemma connect_with_empty_id_witness :
  let srv' := snd (connectCredentials (sampleSdk sampleListing) (fun _ => "0.i") 0 1000
                     (Some (JObject payloadA)) serverA) in
  status (fst (getBuckets (sampleSdk sampleListing) (withCookie EmptyString) srv')) = 401
  /\ disconnect (withCookie EmptyString) srv' = (json_ Success, srv').
Proof.
  intros srv'.
  destruct (connect_with_empty_id (sampleSdk sampleListing) (fun _ => "0.i") 0 1000
              (Some (JObject payloadA)) serverA credsA sampleClient)
    as (_ & _ & _ & _ & Hbuckets & Hdisconnect);
    [vm_compute; reflexivity|reflexivity|vm_compute; lia|].
  split; [exact Hbuckets|exact Hdisconnect].
Defined.

Example connectRole_rolePayload :
  fst (connectRole (sampleSdk sampleListing) sampleSts sampleToString36 0 1000
         (Some (JObject rolePayload)) serverA)
  = {| api_status := 200; api_body := Connected "82mvyr"; api_cookie := Some "82mvyr" |}.
Proof. vm_compute. reflexivity. Qed.

Example connectRole_emptySts :
  connectRole (sampleSdk sampleListing) emptySts sampleToString36 0 1000
    (Some (JObject rolePayload)) serverA
  = (reply 400 (Failed (Message "Failed to assume role - no credentials returned")),
     serverA).
Proof. vm_compute. reflexivity. Qed.

Lemma getObjects_outcome_witness :
  fst (getObjects (sampleSdk sampleListing) cookieA "my-bucket" (Some "photos/") serverB)
  = reply 200 (ObjectList (collectObjects "photos/" sampleListing))
  /\ fst (getObjects deniedSdk cookieA "my-bucket" None serverB)
     = reply 500 (Failed (Message "Access Denied")).
Proof.
  split.
  - destruct (getObjects_outcome (sampleSdk sampleListing) cookieA serverB sessionA
                "my-bucket" (Some "photos/") sampleClient hasSession_cookieA eq_refl)
      as [Hok _].
    rewrite (Hok sampleListing tt eq_refl). reflexivity.
  - destruct (getObjects_outcome deniedSdk cookieA serverB sessionA
                "my-bucket" None sampleClient hasSession_cookieA eq_refl)
      as [_ Hfail].
    rewrite (Hfail {| message := "Access Denied" |} tt eq_refl). reflexivity.
Defined.

(** ** The file browser: breadcrumbs and names *)

Section Paths.

Lemma split_cons_slash (s : string) : split slash (String slash s) = EmptyString :: split slash s.
Proof. reflexivity. Qed.

Lemma split_not_nil (s : string) : split slash s <> [].
Proof.
  induction s as [|ch s IH]; simpl; [discriminate|].
  destruct (Ascii.eqb ch slash); [discriminate|].
  destruct (split slash s); discriminate.
Qed.

(** Splitting a name followed by a slash and a rest: the name, then the
    pieces of the rest. *)
Lemma split_name (n rest : string) :
  slashFree n = true ->
  split slash (n +:+ "/" +:+ rest) = n :: split slash rest.
Proof.
  induction n as [|ch n IH]; intros Hfree.
  - reflexivity.
  - simpl in Hfree. apply andb_true_iff in Hfree as [Hch Hfree].
    apply negb_true_iff in Hch.
    change (String ch n +:+ "/" +:+ rest) with (String ch (n +:+ "/" +:+ rest)).
    simpl. rewrite Hch, (IH Hfree). reflexivity.
Qed.

Lemma split_slashFree (n : string) : slashFree n = true -> split slash n = [n].
Proof.
  induction n as [|ch n IH]; intros Hfree; [reflexivity|].
  simpl in Hfree. apply andb_true_iff in Hfree as [Hch Hfree].
  apply negb_true_iff in Hch. simpl. rewrite Hch, (IH Hfree). reflexivity.
Qed.

Lemma split_folderKey (names : list string) (rest : string) :
  Forall (fun n => folderName n = true) names ->
  split slash (folderKey names +:+ rest) = (names ++ split slash rest)%list.
Proof.
  induction 1 as [|n names Hn _ IH]; [reflexivity|].
  apply andb_true_iff in Hn as [_ Hfree]. simpl.
  rewrite !append_assoc. rewrite (split_name n _ Hfree), IH. reflexivity.
Qed.

Lemma append_empty_r (s : string) : s +:+ EmptyString = s.
Proof.
  induction s as [|ch s IH]; [reflexivity|].
  change (String ch (s +:+ EmptyString) = String ch s). f_equal. exact IH.
Qed.

Lemma filter_truthy_names (names : list string) :
  Forall (fun n => folderName n = true) names -> List.filter truthy names = names.
Proof.
  induction 1 as [|n names Hn _ IH]; [reflexivity|].
  apply andb_true_iff in Hn as [Htruthy _]. simpl. rewrite Htruthy, IH. reflexivity.
Qed.

Lemma segments_folderKey (names : list string) :
  Forall (fun n => folderName n = true) names -> segments (folderKey names) = names.
Proof.
  intros Hnames. unfold segments.
  rewrite <- (append_empty_r (folderKey names)), (split_folderKey names _ Hnames).
  rewrite List.filter_app, (filter_truthy_names names Hnames). simpl.
  apply app_nil_r.
Qed.

(** The test on the current path changes nothing: the empty path has no
    segment. *)
Lemma getBreadcrumbs_segments (bucket path : string) :
  getBreadcrumbs bucket path
  = {| crumb_name := bucket; crumb_path := EmptyString |}
    :: crumbsFrom EmptyString (segments path).
Proof.
  unfold getBreadcrumbs. destruct path as [|ch path]; reflexivity.
Qed.

Lemma crumbsFrom_names (path : string) (names : list string) :
  crumb_name <$> crumbsFrom path names = names.
Proof.
  revert path. induction names as [|n names IH]; intros path; [reflexivity|].
  simpl. f_equal. apply IH.
Qed.

Lemma crumbsFrom_lookup (path : string) (names : list string) (i : nat) (n : string) :
  names !! i = Some n ->
  crumbsFrom path names !! i
  = Some {| crumb_name := n; crumb_path := path +:+ folderKey (take (S i) names) |}.
Proof.
  revert path i. induction names as [|m names IH]; intros path i; [discriminate|].
  destruct i as [|i]; simpl.
  - intros H; inversion H; subst. rewrite append_empty_r. reflexivity.
  - intros Hn. rewrite (IH _ _ Hn). rewrite !append_assoc. reflexivity.
Qed.

(** X25: For the key of a folder, made of folder names each followed by a
    slash, the breadcrumbs are the bucket, leading to the root, and then
    one crumb for each folder name, in order, leading to the key of that
    folder: the last crumb leads to the current path itself. *)
Theorem getBreadcrumbs_folderKey (bucket : string) (names : list string) :
  Forall (fun n => folderName n = true) names ->
  let crumbs := getBreadcrumbs bucket (folderKey names) in
  crumb_name <$> crumbs = bucket :: names
  /\ crumbs !! 0%nat = Some {| crumb_name := bucket; crumb_path := EmptyString |}
  /\ (forall (i : nat) n, names !! i = Some n ->
        crumbs !! S i
        = Some {| crumb_name := n; crumb_path := folderKey (take (S i) names) |})
  /\ (names <> [] ->
      crumb_path <$> last crumbs = Some (folderKey names)).
Proof.
  intros Hnames crumbs. unfold crumbs.
  rewrite getBreadcrumbs_segments, (segments_folderKey names Hnames).
  split; [|split; [|split]].
  - simpl. f_equal. apply crumbsFrom_names.
  - reflexivity.
  - intros i n Hn. simpl. rewrite (crumbsFrom_lookup _ _ _ _ Hn). reflexivity.
  - intros Hne.
    destruct (exists_last Hne) as (front & n & ->).
    assert ((front ++ [n])%list !! length front = Some n) as Hn
      by (rewrite lookup_app_r, Nat.sub_diag by lia; reflexivity).
    pose proof (crumbsFrom_lookup EmptyString _ _ _ Hn) as Hlast.
    rewrite firstn_all2 in Hlast by (rewrite length_app; simpl; lia).
    rewrite last_cons.
    assert (last (crumbsFrom EmptyString (front ++ [n]))
            = crumbsFrom EmptyString (front ++ [n]) !! length front) as ->.
    { rewrite last_lookup. f_equal.
      rewrite <- (length_fmap crumb_name), crumbsFrom_names, length_app. simpl. lia. }
    rewrite Hlast. reflexivity.
Qed.

Lemma last_map_Some (pieces : list string) :
  List.last (map Some pieces) None = last pieces.
Proof.
  induction pieces as [|p [|q pieces] IH]; [reflexivity|reflexivity|].
  exact IH.
Qed.

(** X26: The name shown for a folder entry is the last folder name of its key,
    and the name shown for a file is what follows the last slash of its
    key. *)
Theorem displayName_last (names : list string) (n : string) :
  Forall (fun m => folderName m = true) names ->
  folderName n = true ->
  displayName (folderKey (names ++ [n])) true = n
  /\ displayName (folderKey names +:+ n) false = n.
Proof.
  intros Hnames Hn.
  pose proof Hn as Hn'. apply andb_true_iff in Hn' as [Htruthy Hfree].
  unfold displayName, popOr. split.
  - rewrite segments_folderKey by (apply Forall_app; split; [exact Hnames|repeat constructor; exact Hn]).
    rewrite last_map_Some, last_snoc, Htruthy. reflexivity.
  - rewrite (split_folderKey names n Hnames), (split_slashFree n Hfree).
    rewrite last_map_Some, last_snoc, Htruthy. reflexivity.
Qed.

End Paths.

Example getBreadcrumbs_photos :
  getBreadcrumbs "my-bucket" "photos/2024/"
  = [ {| crumb_name := "my-bucket"; crumb_path := EmptyString |};
      {| crumb_name := "photos"; crumb_path := "photos/" |};
      {| crumb_name := "2024"; crumb_path := "photos/2024/" |} ].
Proof. vm_compute. reflexivity. Qed.

(** A key with an empty folder name: the crumbs skip it, and the last crumb
    leads to another prefix than the current path. *)
Example getBreadcrumbs_doubled_slash :
  getBreadcrumbs "my-bucket" "photos//2024/"
  = [ {| crumb_name := "my-bucket"; crumb_path := EmptyString |};
      {| crumb_name := "photos"; crumb_path := "photos/" |};
      {| crumb_name := "2024"; crumb_path := "photos/2024/" |} ].
Proof. vm_compute. reflexivity. Qed.

Lemma getBreadcrumbs_folderKey_witness :
  crumb_path <$> last (getBreadcrumbs "my-bucket" "photos/2024/") = Some "photos/2024/".
Proof.
  apply (proj2 (proj2 (proj2 (getBreadcrumbs_folderKey "my-bucket" ["photos"; "2024"]
                                (ltac:(repeat constructor)))))).
  discriminate.
Defined.

Lemma displayName_last_witness :
  displayName "photos/2024/" true = "2024"
  /\ displayName "photos/2024/a.jpg" false = "a.jpg".
Proof.
  split.
  - apply (proj1 (displayName_last ["photos"] "2024"
                    ltac:(repeat constructor) eq_refl)).
  - apply (proj2 (displayName_last ["photos"; "2024"] "a.jpg"
                    ltac:(repeat constructor) eq_refl)).
Defined.

Example slash_character : String slash EmptyString = "/".
Proof. reflexivity. Qed.

(** ** The listing and the old cookie on concrete cases *)

Lemma listObjects_never_prefix_witness :
  exists objs,
    listObjects (sampleSdk sampleListing) "my-bucket" (Some "photos/") None bound tt
    = (Return objs, bound, tt)
    /\ forall o, In o objs -> key o <> Some "photos/".
Proof.
  apply (listObjects_never_prefix (sampleSdk sampleListing)
           "my-bucket" (Some "photos/") None bound sampleClient tt sampleListing tt
           eq_refl eq_refl).
  intros cp [<-|[]]. split; [discriminate|]. exists "2024". reflexivity.
Defined.

(** The first user disconnects; a second user connects and the draw gives
    the same id; the cookie of the first user is accepted again. *)
Lemma old_cookie_after_reconnect_witness :
  let sdk := sampleSdk sampleListing in
  let disconnected := snd (disconnect cookieA serverA) in
  let reconnected :=
    snd (connectCredentials sdk sampleToString36 0 2000 (Some (JObject payloadB))
           disconnected) in
  status (fst (getBuckets sdk cookieA serverA)) = 200
  /\ status (fst (getBuckets sdk cookieA disconnected)) = 401
  /\ fst (getBuckets sdk cookieA reconnected)
     = json_ (BucketList [ {| name := Some "my-bucket"; bucket_region := "us-east-1";
                              creationDate := Some 1600000000000 |} ]).
Proof.
  intros sdk disconnected reconnected.
  destruct (old_cookie_after_reconnect sdk sampleToString36 0 2000
              (Some (JObject payloadB)) serverA credsB clientB)
    as (_ & Hrefused & _ & Haccepted);
    [vm_compute; reflexivity|reflexivity|reflexivity|].
  split; [vm_compute; reflexivity|]. split; [exact Hrefused|].
  exact (Haccepted _ tt eq_refl).
Defined.
